(** * A PDF viewer component: view state, loaders, renderer, control surface

    Shallow embedding of the two React components of the repository:

    - [App]    : [src/src/App.tsx], the file-only viewer;
    - [AppUrl] : [src/unnamed/part_000], the later viewer with the URL
                 loader and the text layer.

    Each [useState] cell is a field of a state record, each setter a
    state update.  A handler runs against the values committed by the
    last render (its closure) and its queued updates are committed before
    the next event is handled; an [async] handler is cut at its [await]
    into the synchronous segments the event loop runs.  Calls into
    [pdfjs-dist], the DOM and the browser are recorded in an effect log,
    and what they answer is supplied from outside (events and oracles).

    Numbers: [pageNum], [totalPages] and [rotation] only ever hold small
    integers and are [Z]; [scale] is an IEEE-754 binary64 [float], with
    the additions and comparisons of the source.

    [handleTextSelection] of part_000 reads the selection and writes to
    the console only; it is left out. *)

From Stdlib Require Import ZArith List String Bool Lia Floats.
Import ListNotations.

Set Warnings "-inexact-float".

Local Open Scope string_scope.
Local Open Scope Z_scope.

(** ** JavaScript operators used by the source *)

Module Js.

(** [Math.min(a, b)]: NaN if either is NaN, and -0 is below +0. *)
Definition Math_min (a b : float) : float :=
  if (PrimFloat.is_nan a || PrimFloat.is_nan b)%bool then PrimFloat.nan
  else if PrimFloat.ltb a b then a
  else if PrimFloat.ltb b a then b
  else if (PrimFloat.is_zero a && PrimFloat.get_sign a)%bool then a
  else b.

(** [Math.max(a, b)]: NaN if either is NaN, and +0 is above -0. *)
Definition Math_max (a b : float) : float :=
  if (PrimFloat.is_nan a || PrimFloat.is_nan b)%bool then PrimFloat.nan
  else if PrimFloat.ltb b a then a
  else if PrimFloat.ltb a b then b
  else if (PrimFloat.is_zero a && PrimFloat.get_sign a)%bool then b
  else a.

(** [a % b] on integers: the remainder takes the sign of the dividend. *)
Definition rem (a b : Z) : Z := Z.rem a b.

(** The conversion of a number to a Web IDL [unsigned long], as an IDL
    attribute setter does it: NaN, the zeros and the infinities give 0;
    any other number is cut to its integer part and reduced modulo 2^32. *)
Definition to_unsigned_long (x : float) : Z :=
  match Prim2SF x with
  | S754_finite s m e =>
    let n := if 0 <=? e then Z.pos m * 2 ^ e else Z.pos m / 2 ^ (- e) in
    (if s then - n else n) mod 2 ^ 32
  | _ => 0
  end.

(** A thrown value: an [Error] object, or anything else together with
    what [String(error)] gives for it. *)
Inductive Thrown : Type :=
| ErrorObj (name message : string)
| Other (text : string).

(** [error instanceof Error ? error.message : String(error)] *)
Definition message_or_string (e : Thrown) : string :=
  match e with
  | ErrorObj _ m => m
  | Other t => t
  end.

(** The outcome of a call that may throw (or of an awaited promise). *)
Inductive Result (A : Type) : Type :=
| Ok (a : A)
| Throw (e : Thrown).
Arguments Ok {A} a.
Arguments Throw {A} e.

End Js.
Import Js.

(** ** What the component talks to *)

(** [PDFDocumentProxy]: an opaque handle; the component reads [numPages]
    and calls [getPage]. *)
Record PDFDocumentProxy : Type := mkDoc {
  fingerprint : string;
  numPages : Z
}.

Record PDFPageProxy : Type := mkPage { pageNumber : Z }.

Record PageViewport : Type := mkViewport {
  vp_width : float;
  vp_height : float
}.

Definition TextContent : Type := list string.

(** A selected [File]. *)
Record File : Type := mkFile {
  file_name : string;
  file_type : string
}.

(** The [width] and [height] attributes of a canvas: non-negative
    integers. *)
Record Canvas : Type := mkCanvas {
  cv_width : Z;
  cv_height : Z
}.

(** What the canvas keeps of a number assigned to [canvas.width] or
    [canvas.height]: the attributes are [unsigned long] and reflect a
    content attribute, so the number is converted, and a value above
    2147483647 gives the default (300 for the width, 150 for the height). *)
Definition canvas_dimension (default : Z) (x : float) : Z :=
  let n := to_unsigned_long x in
  if n <=? 2147483647 then n else default.

Record TextLayer : Type := mkTextLayer {
  tl_width : float;           (* style.width, in px *)
  tl_height : float;          (* style.height, in px *)
  tl_children : list string   (* innerHTML *)
}.

(** The refs: [None] is a ref whose [current] is [null]. *)
Record Dom : Type := mkDom {
  fileInputRef : option string;       (* the file input's [value] *)
  canvasRef : option Canvas;
  textLayerRef : option TextLayer     (* part_000 only *)
}.

(** Calls that leave the component. *)
Inductive Effect : Type :=
| Alert (msg : string)
| ConsoleError (label : string)
| ReadAsArrayBuffer (f : File)
| GetDocumentData (data : list Byte.byte)
| GetDocumentUrl (url : string)
| GetPage (d : PDFDocumentProxy) (n : Z)
| GetContext2d
| GetViewport (scale : float) (rotation : Z)
| PageRender (p : PDFPageProxy) (v : PageViewport)
| GetTextContent (p : PDFPageProxy)
| RenderTextLayer (t : TextContent) (v : PageViewport).

(** What the library and the canvas answer during one [renderPage]. *)
Record RenderOracle : Type := mkOracle {
  o_getPage : PDFDocumentProxy -> Z -> Result PDFPageProxy;
  o_getContext : bool;                (* [false]: [getContext('2d')] is null *)
  o_getViewport : PDFPageProxy -> float -> Z -> Result PageViewport;
  o_render : PDFPageProxy -> PageViewport -> Result unit;
  o_getTextContent : PDFPageProxy -> Result TextContent;
  o_renderTextLayer : TextContent -> PageViewport -> Result unit
}.

(** ** State, DOM and log; the monad of a handler segment *)

Record World (S : Type) : Type := mkWorld {
  st : S;
  dom : Dom;
  log : list Effect
}.
Arguments mkWorld {S} _ _ _.
Arguments st {S} _.
Arguments dom {S} _.
Arguments log {S} _.

(** A computation over the world that returns or throws; what it did
    before throwing stays done. *)
Definition M (S A : Type) : Type := World S -> Result A * World S.

Definition ret {S A} (a : A) : M S A := fun w => (Ok a, w).

Definition bind {S A B} (m : M S A) (k : A -> M S B) : M S B :=
  fun w =>
    match m w with
    | (Ok a, w') => k a w'
    | (Throw e, w') => (Throw e, w')
    end.

Notation "x <- m ;; k" := (bind m (fun x => k))
  (at level 61, m at next level, right associativity).
Notation "m ;;; k" := (bind m (fun _ => k))
  (at level 61, right associativity).

(** [try { body } catch (error) { handler error }] *)
Definition try_catch {S A} (body : M S A) (handler : Thrown -> M S A) : M S A :=
  fun w =>
    match body w with
    | (Ok a, w') => (Ok a, w')
    | (Throw e, w') => handler e w'
    end.

Definition get_state {S} : M S S := fun w => (Ok (st w), w).
Definition get_dom {S} : M S Dom := fun w => (Ok (dom w), w).

Definition update_state {S} (f : S -> S) : M S unit :=
  fun w => (Ok tt, mkWorld (f (st w)) (dom w) (log w)).

Definition update_dom {S} (f : Dom -> Dom) : M S unit :=
  fun w => (Ok tt, mkWorld (st w) (f (dom w)) (log w)).

Definition emit {S} (e : Effect) : M S unit :=
  fun w => (Ok tt, mkWorld (st w) (dom w) (log w ++ [e])).

(** A call into the library: logged, then it answers or throws. *)
Definition call {S A} (e : Effect) (r : Result A) : M S A :=
  fun w => (r, mkWorld (st w) (dom w) (log w ++ [e])).

Definition exec {S A} (m : M S A) (w : World S) : World S := snd (m w).
Definition outcome {S A} (m : M S A) (w : World S) : Result A := fst (m w).

Definition alert {S} (msg : string) : M S unit := emit (Alert msg).
Definition console_error {S} (label : string) : M S unit :=
  emit (ConsoleError label).

(** [if (fileInputRef.current) fileInputRef.current.value = ""] *)
Definition clear_file_input {S} : M S unit :=
  update_dom (fun d =>
    mkDom (match fileInputRef d with Some _ => Some "" | None => None end)
          (canvasRef d) (textLayerRef d)).

Definition set_canvas {S} (f : Canvas -> Canvas) : M S unit :=
  update_dom (fun d =>
    mkDom (fileInputRef d) (option_map f (canvasRef d)) (textLayerRef d)).

Definition set_text_layer {S} (f : TextLayer -> TextLayer) : M S unit :=
  update_dom (fun d =>
    mkDom (fileInputRef d) (canvasRef d) (option_map f (textLayerRef d))).

(** ** The updaters of the control surface (the same in both files) *)

Definition prev_page (prevPageNum : Z) : Z := prevPageNum - 1.
Definition next_page (prevPageNum : Z) : Z := prevPageNum + 1.

Definition zoom_in (prevScale : float) : float :=
  Math_min (prevScale + 0.2)%float 3%float.
Definition zoom_out (prevScale : float) : float :=
  Math_max (prevScale - 0.2)%float 0.25%float.

Definition rotate_cw (prevRotation : Z) : Z := Js.rem (prevRotation + 90) 360.
Definition rotate_ccw (prevRotation : Z) : Z :=
  Js.rem (prevRotation - 90 + 360) 360.

(** [file.type !== 'application/pdf'], with [!file] for an empty selection *)
Definition is_pdf_selection (sel : option File) : bool :=
  match sel with
  | None => false
  | Some f => String.eqb (file_type f) "application/pdf"
  end.

Definition set_to {A} (v : A) : A -> A := fun _ => v.

(** ** [src/src/App.tsx] *)

Module App.

Record State : Type := mkState {
  pdfDoc : option PDFDocumentProxy;
  pageNum : Z;
  totalPages : Z;
  scale : float;
  rotation : Z
}.

(** The [useState] initial values. *)
Definition initial : State := mkState None 1 0 1.0%float 0.

Definition Handler : Type := M State unit.

Definition setPdfDoc (f : option PDFDocumentProxy -> option PDFDocumentProxy)
  : Handler :=
  update_state (fun s =>
    mkState (f (pdfDoc s)) (pageNum s) (totalPages s) (scale s) (rotation s)).
Definition setPageNum (f : Z -> Z) : Handler :=
  update_state (fun s =>
    mkState (pdfDoc s) (f (pageNum s)) (totalPages s) (scale s) (rotation s)).
Definition setTotalPages (f : Z -> Z) : Handler :=
  update_state (fun s =>
    mkState (pdfDoc s) (pageNum s) (f (totalPages s)) (scale s) (rotation s)).
Definition setScale (f : float -> float) : Handler :=
  update_state (fun s =>
    mkState (pdfDoc s) (pageNum s) (totalPages s) (f (scale s)) (rotation s)).
Definition setRotation (f : Z -> Z) : Handler :=
  update_state (fun s =>
    mkState (pdfDoc s) (pageNum s) (totalPages s) (scale s) (f (rotation s))).

(** [renderPage], lines 30-49: the [try] block; [s] is the closure (the
    state of the render that created the function). *)
Definition renderPage_try (o : RenderOracle) (s : State)
  (doc : PDFDocumentProxy) (pageNumber : Z) : Handler :=
  page <- call (GetPage doc pageNumber) (o_getPage o doc pageNumber) ;;
  emit GetContext2d ;;;
  if negb (o_getContext o)
  then console_error "Failed to get 2D context from canvas."
  else
    viewport <- call (GetViewport (scale s) (rotation s))
                     (o_getViewport o page (scale s) (rotation s)) ;;
    set_canvas (fun c =>
      mkCanvas (cv_width c) (canvas_dimension 150 (vp_height viewport))) ;;;
    set_canvas (fun c =>
      mkCanvas (canvas_dimension 300 (vp_width viewport)) (cv_height c)) ;;;
    call (PageRender page viewport) (o_render o page viewport).

(** [renderPage], lines 50-53: the [catch] block. *)
Definition renderPage_catch (error : Thrown) : Handler :=
  console_error "Error rendering page:" ;;;
  alert ("Error rendering page: " ++ message_or_string error).

(** [renderPage], lines 21-54. *)
Definition renderPage (o : RenderOracle) (pageNumber : Z) : Handler :=
  s <- get_state ;;
  match pdfDoc s with
  | None => ret tt
  | Some doc =>
    d <- get_dom ;;
    match canvasRef d with
    | None => console_error "Canvas element not found."
    | Some _ => try_catch (renderPage_try o s doc pageNumber) renderPage_catch
    end
  end.

(** [handleFileChange], lines 56-100: the synchronous part. *)
Definition handleFileChange (sel : option File) : Handler :=
  match sel with
  | Some file =>
    if String.eqb (file_type file) "application/pdf"
    then emit (ReadAsArrayBuffer file)
    else alert "Please select a valid PDF file" ;;; clear_file_input
  | None => alert "Please select a valid PDF file" ;;; clear_file_input
  end.

(** [reader.onload], lines 67-76: up to [await loadingTask.promise]. *)
Definition reader_onload (result : option (list Byte.byte)) : Handler :=
  match result with
  | None => alert "Error reading file"
  | Some typedArray => emit (GetDocumentData typedArray)
  end.

(** [reader.onload], lines 78-82: the promise is fulfilled. *)
Definition reader_onload_fulfilled (pdf : PDFDocumentProxy) : Handler :=
  setPdfDoc (set_to (Some pdf)) ;;;
  setTotalPages (set_to (numPages pdf)) ;;;
  setPageNum (set_to 1) ;;;
  setScale (set_to 1.0%float) ;;;
  setRotation (set_to 0).

(** [reader.onload], lines 83-91: the [catch]. *)
Definition reader_onload_rejected (error : Thrown) : Handler :=
  console_error "Error loading PDF:" ;;;
  alert ("Error loading PDF file: " ++ message_or_string error) ;;;
  clear_file_input ;;;
  setPdfDoc (set_to None) ;;;
  setTotalPages (set_to 0).

(** [reader.onerror], lines 93-98. *)
Definition reader_onerror : Handler :=
  alert "Error reading file" ;;; clear_file_input.

Definition goToPrevPage : Handler :=
  s <- get_state ;;
  if 1 <? pageNum s then setPageNum prev_page else ret tt.

Definition goToNextPage : Handler :=
  s <- get_state ;;
  if pageNum s <? totalPages s then setPageNum next_page else ret tt.

Definition zoomIn : Handler := setScale zoom_in.
Definition zoomOut : Handler := setScale zoom_out.
Definition rotateClockwise : Handler := setRotation rotate_cw.
Definition rotateCounterClockwise : Handler := setRotation rotate_ccw.

(** The [useEffect] body, lines 130-135. *)
Definition render_effect (o : RenderOracle) : Handler :=
  s <- get_state ;;
  d <- get_dom ;;
  match pdfDoc s, canvasRef d with
  | Some _, Some _ => renderPage o (pageNum s)
  | _, _ => ret tt
  end.

(** What the event loop can run next. *)
Inductive Event : Type :=
| FileChange (sel : option File)
| ReaderLoad (result : option (list Byte.byte))
| LoadFulfilled (pdf : PDFDocumentProxy)
| LoadRejected (error : Thrown)
| ReaderError
| PrevPage
| NextPage
| ZoomIn
| ZoomOut
| RotateRight
| RotateLeft
| Render (o : RenderOracle).

Definition handle (e : Event) : Handler :=
  match e with
  | FileChange sel => handleFileChange sel
  | ReaderLoad result => reader_onload result
  | LoadFulfilled pdf => reader_onload_fulfilled pdf
  | LoadRejected error => reader_onload_rejected error
  | ReaderError => reader_onerror
  | PrevPage => goToPrevPage
  | NextPage => goToNextPage
  | ZoomIn => zoomIn
  | ZoomOut => zoomOut
  | RotateRight => rotateClockwise
  | RotateLeft => rotateCounterClockwise
  | Render o => render_effect o
  end.

Definition step (w : World State) (e : Event) : World State :=
  exec (handle e) w.

Definition run (es : list Event) (w : World State) : World State :=
  fold_left step es w.

(** The documents a trace delivers. *)
Definition delivered (e : Event) : option PDFDocumentProxy :=
  match e with
  | LoadFulfilled pdf => Some pdf
  | _ => None
  end.

End App.

(** ** [src/unnamed/part_000]: the viewer with the URL loader and the
    text layer *)

Module AppUrl.

Record State : Type := mkState {
  pdfDoc : option PDFDocumentProxy;
  pageNum : Z;
  totalPages : Z;
  scale : float;
  rotation : Z;
  isLoadingUrl : bool;
  urlError : option string
}.

Definition initial : State := mkState None 1 0 1.0%float 0 false None.

Definition Handler : Type := M State unit.

Definition setPdfDoc (f : option PDFDocumentProxy -> option PDFDocumentProxy)
  : Handler :=
  update_state (fun s =>
    mkState (f (pdfDoc s)) (pageNum s) (totalPages s) (scale s) (rotation s)
            (isLoadingUrl s) (urlError s)).
Definition setPageNum (f : Z -> Z) : Handler :=
  update_state (fun s =>
    mkState (pdfDoc s) (f (pageNum s)) (totalPages s) (scale s) (rotation s)
            (isLoadingUrl s) (urlError s)).
Definition setTotalPages (f : Z -> Z) : Handler :=
  update_state (fun s =>
    mkState (pdfDoc s) (pageNum s) (f (totalPages s)) (scale s) (rotation s)
            (isLoadingUrl s) (urlError s)).
Definition setScale (f : float -> float) : Handler :=
  update_state (fun s =>
    mkState (pdfDoc s) (pageNum s) (totalPages s) (f (scale s)) (rotation s)
            (isLoadingUrl s) (urlError s)).
Definition setRotation (f : Z -> Z) : Handler :=
  update_state (fun s =>
    mkState (pdfDoc s) (pageNum s) (totalPages s) (scale s) (f (rotation s))
            (isLoadingUrl s) (urlError s)).
Definition setIsLoadingUrl (f : bool -> bool) : Handler :=
  update_state (fun s =>
    mkState (pdfDoc s) (pageNum s) (totalPages s) (scale s) (rotation s)
            (f (isLoadingUrl s)) (urlError s)).
Definition setUrlError (f : option string -> option string) : Handler :=
  update_state (fun s =>
    mkState (pdfDoc s) (pageNum s) (totalPages s) (scale s) (rotation s)
            (isLoadingUrl s) (f (urlError s))).

(** [renderPage], lines 41-76: the [try] block; [s] is the closure. *)
Definition renderPage_try (o : RenderOracle) (s : State)
  (doc : PDFDocumentProxy) (pageNumber : Z) : Handler :=
  page <- call (GetPage doc pageNumber) (o_getPage o doc pageNumber) ;;
  emit GetContext2d ;;;
  if negb (o_getContext o)
  then console_error "Failed to get 2D context from canvas."
  else
    viewport <- call (GetViewport (scale s) (rotation s))
                     (o_getViewport o page (scale s) (rotation s)) ;;
    set_canvas (fun c =>
      mkCanvas (cv_width c) (canvas_dimension 150 (vp_height viewport))) ;;;
    set_canvas (fun c =>
      mkCanvas (canvas_dimension 300 (vp_width viewport)) (cv_height c)) ;;;
    set_text_layer (fun t =>
      mkTextLayer (vp_width viewport) (tl_height t) (tl_children t)) ;;;
    set_text_layer (fun t =>
      mkTextLayer (tl_width t) (vp_height viewport) (tl_children t)) ;;;
    set_text_layer (fun t => mkTextLayer (tl_width t) (tl_height t) []) ;;;
    call (PageRender page viewport) (o_render o page viewport) ;;;
    textContent <- call (GetTextContent page) (o_getTextContent o page) ;;
    call (RenderTextLayer textContent viewport)
         (o_renderTextLayer o textContent viewport).

(** [renderPage], lines 77-80: the [catch] block. *)
Definition renderPage_catch (error : Thrown) : Handler :=
  console_error "Error rendering page:" ;;;
  alert ("Error rendering page: " ++ message_or_string error).

(** [renderPage], lines 29-81. *)
Definition renderPage (o : RenderOracle) (pageNumber : Z) : Handler :=
  s <- get_state ;;
  match pdfDoc s with
  | None => ret tt
  | Some doc =>
    d <- get_dom ;;
    match canvasRef d, textLayerRef d with
    | Some _, Some _ =>
      try_catch (renderPage_try o s doc pageNumber) renderPage_catch
    | _, _ => console_error "Canvas element not found."
    end
  end.

(** [handleFileChange], lines 98-144: the synchronous part. *)
Definition handleFileChange (sel : option File) : Handler :=
  match sel with
  | Some file =>
    if String.eqb (file_type file) "application/pdf"
    then
      setUrlError (set_to None) ;;;
      setIsLoadingUrl (set_to false) ;;;
      emit (ReadAsArrayBuffer file)
    else alert "Please select a valid PDF file" ;;; clear_file_input
  | None => alert "Please select a valid PDF file" ;;; clear_file_input
  end.

(** [reader.onload], lines 111-120: up to [await loadingTask.promise]. *)
Definition reader_onload (result : option (list Byte.byte)) : Handler :=
  match result with
  | None => alert "Error reading file"
  | Some typedArray => emit (GetDocumentData typedArray)
  end.

(** [reader.onload], lines 122-126. *)
Definition reader_onload_fulfilled (pdf : PDFDocumentProxy) : Handler :=
  setPdfDoc (set_to (Some pdf)) ;;;
  setTotalPages (set_to (numPages pdf)) ;;;
  setPageNum (set_to 1) ;;;
  setScale (set_to 1.0%float) ;;;
  setRotation (set_to 0).

(** [reader.onload], lines 127-135. *)
Definition reader_onload_rejected (error : Thrown) : Handler :=
  console_error "Error loading PDF:" ;;;
  alert ("Error loading PDF file: " ++ message_or_string error) ;;;
  clear_file_input ;;;
  setPdfDoc (set_to None) ;;;
  setTotalPages (set_to 0).

(** [reader.onerror], lines 137-142. *)
Definition reader_onerror : Handler :=
  alert "Error reading file" ;;; clear_file_input.

(** [loadPdfFromUrl], lines 146-157: up to [await loadingTask.promise]. *)
Definition loadPdfFromUrl (url : string) : Handler :=
  s <- get_state ;;
  if isLoadingUrl s then ret tt
  else
    setIsLoadingUrl (set_to true) ;;;
    setUrlError (set_to None) ;;;
    setPdfDoc (set_to None) ;;;
    clear_file_input ;;;
    emit (GetDocumentUrl url).

(** [loadPdfFromUrl], lines 158-162, then the [finally]. *)
Definition loadPdfFromUrl_fulfilled (pdf : PDFDocumentProxy) : Handler :=
  setPdfDoc (set_to (Some pdf)) ;;;
  setTotalPages (set_to (numPages pdf)) ;;;
  setPageNum (set_to 1) ;;;
  setScale (set_to 1.0%float) ;;;
  setRotation (set_to 0) ;;;
  setIsLoadingUrl (set_to false).

(** The message built in the [catch], lines 165-174. *)
Definition url_error_message (url : string) (err : Thrown) : string :=
  match err with
  | ErrorObj name message =>
    if String.eqb name "MissingPDFException"
    then "File not found at URL: " ++ url ++ ". Or CORS issue."
    else if String.eqb name "UnexpectedResponseException"
    then "Unexpected server response from URL: " ++ url ++
         ". Check if the file exists and the server is configured correctly (CORS?)."
    else "Failed to load PDF from URL." ++ " " ++ message
  | Other _ => "Failed to load PDF from URL."
  end.

(** [loadPdfFromUrl], lines 163-177, then the [finally]. *)
Definition loadPdfFromUrl_rejected (url : string) (err : Thrown) : Handler :=
  console_error "Error loading PDF from URL:" ;;;
  setUrlError (set_to (Some (url_error_message url err))) ;;;
  setPdfDoc (set_to None) ;;;
  setTotalPages (set_to 0) ;;;
  setIsLoadingUrl (set_to false).

Definition goToPrevPage : Handler :=
  s <- get_state ;;
  if 1 <? pageNum s then setPageNum prev_page else ret tt.

Definition goToNextPage : Handler :=
  s <- get_state ;;
  if pageNum s <? totalPages s then setPageNum next_page else ret tt.

Definition zoomIn : Handler := setScale zoom_in.
Definition zoomOut : Handler := setScale zoom_out.
Definition rotateClockwise : Handler := setRotation rotate_cw.
Definition rotateCounterClockwise : Handler := setRotation rotate_ccw.

(** The [useEffect] body, lines 211-216. *)
Definition render_effect (o : RenderOracle) : Handler :=
  s <- get_state ;;
  d <- get_dom ;;
  match pdfDoc s, canvasRef d with
  | Some _, Some _ => renderPage o (pageNum s)
  | _, _ => ret tt
  end.

Inductive Event : Type :=
| FileChange (sel : option File)
| ReaderLoad (result : option (list Byte.byte))
| LoadFulfilled (pdf : PDFDocumentProxy)
| LoadRejected (error : Thrown)
| ReaderError
| LoadUrl (url : string)
| UrlFulfilled (pdf : PDFDocumentProxy)
| UrlRejected (url : string) (err : Thrown)
| PrevPage
| NextPage
| ZoomIn
| ZoomOut
| RotateRight
| RotateLeft
| Render (o : RenderOracle).

Definition handle (e : Event) : Handler :=
  match e with
  | FileChange sel => handleFileChange sel
  | ReaderLoad result => reader_onload result
  | LoadFulfilled pdf => reader_onload_fulfilled pdf
  | LoadRejected error => reader_onload_rejected error
  | ReaderError => reader_onerror
  | LoadUrl url => loadPdfFromUrl url
  | UrlFulfilled pdf => loadPdfFromUrl_fulfilled pdf
  | UrlRejected url err => loadPdfFromUrl_rejected url err
  | PrevPage => goToPrevPage
  | NextPage => goToNextPage
  | ZoomIn => zoomIn
  | ZoomOut => zoomOut
  | RotateRight => rotateClockwise
  | RotateLeft => rotateCounterClockwise
  | Render o => render_effect o
  end.

Definition step (w : World State) (e : Event) : World State :=
  exec (handle e) w.

Definition run (es : list Event) (w : World State) : World State :=
  fold_left step es w.

Definition delivered (e : Event) : option PDFDocumentProxy :=
  match e with
  | LoadFulfilled pdf | UrlFulfilled pdf => Some pdf
  | _ => None
  end.

(** [disabled={isLoadingUrl}] on the file input, line 232: no change event
    while a URL load is in flight.  Every other event is left free to
    fire, [loadPdfFromUrl] included. *)
Definition can_fire (s : State) (e : Event) : bool :=
  match e with
  | FileChange _ => negb (isLoadingUrl s)
  | _ => true
  end.

Fixpoint fires (es : list Event) (w : World State) : bool :=
  match es with
  | [] => true
  | e :: es' => can_fire (st w) e && fires es' (step w e)
  end.

(** The settling of the URL load's promise. *)
Definition settles_url (e : Event) : bool :=
  match e with
  | UrlFulfilled _ | UrlRejected _ _ => true
  | _ => false
  end.

(** How many times [pdfjsLib.getDocument(url)] was called. *)
Definition is_url_call (e : Effect) : bool :=
  match e with
  | GetDocumentUrl _ => true
  | _ => false
  end.

Definition url_calls (l : list Effect) : nat :=
  List.length (filter is_url_call l).

End AppUrl.

(** ** The scales the zoom buttons reach

    [scale] is set to [1.0] by [useState] and by every load, and is
    otherwise only changed by [zoom_in] and [zoom_out]: the values it can
    take are the orbit of [1.0] under the two, which the search below
    enumerates. *)

Fixpoint float_mem (x : float) (l : list float) : bool :=
  match l with
  | [] => false
  | y :: l' => if PrimFloat.eqb x y then true else float_mem x l'
  end.

Fixpoint orbit (fuel : nat) (todo seen : list float) : list float :=
  match fuel with
  | O => seen
  | S fuel' =>
    match todo with
    | [] => seen
    | x :: todo' =>
      if float_mem x seen then orbit fuel' todo' seen
      else orbit fuel' (zoom_in x :: zoom_out x :: todo') (x :: seen)
    end
  end.

Definition scale_orbit : list float :=
  Eval vm_compute in orbit 200 [1.0%float] [].

Definition scale_in_bounds (s : float) : Prop :=
  PrimFloat.leb 0.25%float s = true /\ PrimFloat.leb s 3%float = true.

(** The exact value of a binary64 number, in units of 2^-60 (every scale
    of the orbit, and 0.2, is a multiple of that). *)
Definition scaled60 (x : float) : option Z :=
  match Prim2SF x with
  | S754_zero _ => Some 0
  | S754_finite s m e =>
    if 0 <=? e + 60
    then Some ((if s then -1 else 1) * (Z.pos m * 2 ^ (e + 60)))
    else None
  | _ => None
  end.

(** How far [b - a] is from [dir * 0.2], over the reals, in units of
    2^-60 / 5. *)
Definition step_off (a b : float) (dir : Z) : option Z :=
  match scaled60 a, scaled60 b with
  | Some x, Some y => Some (Z.abs (5 * (y - x) - dir * 2 ^ 60))
  | _, _ => None
  end.

(** [b - a] is [dir * 0.2] to within 2^-52. *)
Definition near_step (a b : float) (dir : Z) : bool :=
  match step_off a b dir with
  | Some d => d <=? 5 * 2 ^ 8
  | None => false
  end.

Definition rotation_values : list Z := [0; 90; 180; 270].

(** ** Sample inputs *)

Definition doc3 : PDFDocumentProxy := mkDoc "doc-3-pages" 3.
Definition doc7 : PDFDocumentProxy := mkDoc "doc-7-pages" 7.
Definition pdf_file : File := mkFile "a.pdf" "application/pdf".
Definition png_file : File := mkFile "a.png" "image/png".
Definition dom0 : Dom :=
  mkDom (Some "C:\fakepath\a.pdf") None None.
Definition dom1 : Dom :=
  mkDom (Some "C:\fakepath\a.pdf")
        (Some (mkCanvas 300 150))
        (Some (mkTextLayer 0%float 0%float [])).
Definition letter : PageViewport := mkViewport 612%float 792%float.

(** A library that answers every call. *)
Definition oracle_ok : RenderOracle :=
  mkOracle (fun _ n => Ok (mkPage n)) true (fun _ _ _ => Ok letter)
           (fun _ _ => Ok tt) (fun _ => Ok ["Hello"]) (fun _ _ => Ok tt).

(** A library whose [getPage] rejects. *)
Definition oracle_no_page : RenderOracle :=
  mkOracle (fun _ _ => Throw (ErrorObj "Error" "Invalid page request."))
           true (fun _ _ _ => Ok letter)
           (fun _ _ => Ok tt) (fun _ => Ok ["Hello"]) (fun _ _ => Ok tt).

(** A canvas that gives no 2D context. *)
Definition oracle_no_context : RenderOracle :=
  mkOracle (fun _ n => Ok (mkPage n)) false (fun _ _ _ => Ok letter)
           (fun _ _ => Ok tt) (fun _ => Ok ["Hello"]) (fun _ _ => Ok tt).

(** A computation that leaves the [useState] cells as they were. *)
Definition keeps_state {S A} (m : M S A) : Prop :=
  forall w, st (exec m w) = st w.

(** A segment that catches everything it may throw. *)
Definition never_throws {S} (m : M S unit) : Prop :=
  forall w, outcome m w = Ok tt.

(** ** The predicates of the statements *)

(** With a document in [pdfDoc], the page number is one of its pages. *)
Definition App_page_ok (s : App.State) : Prop :=
  forall doc, App.pdfDoc s = Some doc ->
    1 <= App.pageNum s <= App.totalPages s /\ App.totalPages s = numPages doc.

Definition AppUrl_page_ok (s : AppUrl.State) : Prop :=
  forall doc, AppUrl.pdfDoc s = Some doc ->
    1 <= AppUrl.pageNum s <= AppUrl.totalPages s /\
    AppUrl.totalPages s = numPages doc.

(** What is assumed of the library: a load is only ever fulfilled with a
    document that has at least one page. *)
Definition App_has_pages (e : App.Event) : Prop :=
  forall pdf, App.delivered e = Some pdf -> 1 <= numPages pdf.

Definition AppUrl_has_pages (e : AppUrl.Event) : Prop :=
  forall pdf, AppUrl.delivered e = Some pdf -> 1 <= numPages pdf.

(** The handle is gone and the page count cleared. *)
Definition App_discarded (s : App.State) : Prop :=
  App.pdfDoc s = None /\ App.totalPages s = 0.

Definition AppUrl_discarded (s : AppUrl.State) : Prop :=
  AppUrl.pdfDoc s = None /\ AppUrl.totalPages s = 0.

(** A computation that does not call [getDocument(url)]. *)
Definition quiet {S A} (m : M S A) : Prop :=
  forall w, AppUrl.url_calls (log (exec m w)) = AppUrl.url_calls (log w).

(** ** Sample worlds and traces *)

(** A three-page document shown on page 2. *)
Definition App_showing : World App.State :=
  mkWorld (App.mkState (Some doc3) 2 3 1.4%float 90) dom1 [].

Definition AppUrl_showing : World AppUrl.State :=
  mkWorld (AppUrl.mkState (Some doc3) 2 3 1.4%float 90 false None) dom1 [].

(** The same, with the text layer not mounted. *)
Definition AppUrl_no_text_layer : World AppUrl.State :=
  mkWorld (AppUrl.mkState (Some doc3) 2 3 1.4%float 90 false None)
          (mkDom (Some "C:\fakepath\a.pdf") (Some (mkCanvas 300 150)) None) [].

(** A file load that succeeds, then three clicks on Next and a render. *)
Definition three_pages_trace : list App.Event :=
  [App.FileChange (Some pdf_file); App.ReaderLoad (Some []);
   App.LoadFulfilled doc3; App.NextPage; App.NextPage; App.NextPage;
   App.Render oracle_ok].

(** A URL load, then a file load that completes while the first document
    is being read. *)
Definition url_then_file_trace : list AppUrl.Event :=
  [AppUrl.LoadUrl "/test.pdf"; AppUrl.UrlFulfilled doc7; AppUrl.NextPage;
   AppUrl.FileChange (Some pdf_file); AppUrl.ReaderLoad (Some []);
   AppUrl.NextPage; AppUrl.LoadFulfilled doc3; AppUrl.PrevPage].

(** What may happen while a URL load is in flight. *)
Definition busy_trace : list AppUrl.Event :=
  [AppUrl.LoadUrl "/test.pdf"; AppUrl.NextPage; AppUrl.ZoomIn;
   AppUrl.Render oracle_ok; AppUrl.LoadUrl "/other.pdf";
   AppUrl.ReaderError; AppUrl.LoadFulfilled doc3].

(** ** The rendered view (the JSX of the two files) *)

(** [Math.round(x)], as the integer it denotes: the nearest integer, a tie
    going up; [None] for NaN and the infinities. *)
Definition Math_round (x : float) : option Z :=
  match Prim2SF x with
  | S754_zero _ => Some 0
  | S754_finite s m e =>
    let n := if s then Z.neg m else Z.pos m in
    if 0 <=? e then Some (n * 2 ^ e)
    else Some ((2 * n + 2 ^ (- e)) / 2 ^ (- e + 1))
  | _ => None
  end.

(** The texts of the placeholder [div]. *)
Inductive PlaceholderText : Type :=
| SelectFile        (* 'Select a PDF file to view' / 'Select a PDF file or click ...' *)
| LoadingFromUrl    (* 'Loading from URL...' *)
| FailedToLoad.     (* 'Failed to load PDF.' *)

(** What the [pdf-container] shows. *)
Inductive Container : Type :=
| CanvasShown
| Placeholder (text : PlaceholderText).

(** A string in a condition: the empty string is falsy. *)
Definition truthy (m : string) : bool := negb (String.eqb m "").

(** [App.tsx], lines 137-186. *)
Module AppJsx.

(** [{pdfDoc && (...)}], line 150: the controls. *)
Definition controls_shown (s : App.State) : bool :=
  match App.pdfDoc s with Some _ => true | None => false end.

Definition prev_disabled (s : App.State) : bool := App.pageNum s <=? 1.
Definition next_disabled (s : App.State) : bool :=
  App.totalPages s <=? App.pageNum s.
Definition zoomOut_disabled (s : App.State) : bool :=
  PrimFloat.leb (App.scale s) 0.25.
Definition zoomIn_disabled (s : App.State) : bool :=
  PrimFloat.leb 3 (App.scale s).

(** [{Math.round(scale * 100)}%], line 166. *)
Definition zoom_label (s : App.State) : option Z :=
  Math_round (App.scale s * 100)%float.

Definition container (s : App.State) : Container :=
  match App.pdfDoc s with
  | Some _ => CanvasShown
  | None => Placeholder SelectFile
  end.

End AppJsx.

(** [part_000], lines 221-299. *)
Module AppUrlJsx.

Definition fileInput_disabled (s : AppUrl.State) : bool := AppUrl.isLoadingUrl s.
Definition urlButton_disabled (s : AppUrl.State) : bool := AppUrl.isLoadingUrl s.

(** [{urlError && !pdfDoc && (...)}], line 244: the text of the error
    banner, when it is shown. *)
Definition error_banner (s : AppUrl.State) : option string :=
  match AppUrl.urlError s, AppUrl.pdfDoc s with
  | Some m, None => if truthy m then Some m else None
  | _, _ => None
  end.

Definition controls_shown (s : AppUrl.State) : bool :=
  match AppUrl.pdfDoc s with Some _ => true | None => false end.

Definition prev_disabled (s : AppUrl.State) : bool := AppUrl.pageNum s <=? 1.
Definition next_disabled (s : AppUrl.State) : bool :=
  AppUrl.totalPages s <=? AppUrl.pageNum s.
Definition zoomOut_disabled (s : AppUrl.State) : bool :=
  PrimFloat.leb (AppUrl.scale s) 0.25.
Definition zoomIn_disabled (s : AppUrl.State) : bool :=
  PrimFloat.leb 3 (AppUrl.scale s).

(** [{Math.round(scale * 100)}%], line 266. *)
Definition zoom_label (s : AppUrl.State) : option Z :=
  Math_round (AppUrl.scale s * 100)%float.

(** Lines 279-296. *)
Definition container (s : AppUrl.State) : Container :=
  match AppUrl.pdfDoc s with
  | Some _ => CanvasShown
  | None =>
    if AppUrl.isLoadingUrl s then Placeholder LoadingFromUrl
    else match AppUrl.urlError s with
         | Some m =>
           if truthy m then Placeholder FailedToLoad
           else Placeholder SelectFile
         | None => Placeholder SelectFile
         end
  end.

End AppUrlJsx.

(** ** The two files side by side *)

(** The five cells the two components share. *)
Definition shared_cells (s : AppUrl.State) : App.State :=
  App.mkState (AppUrl.pdfDoc s) (AppUrl.pageNum s) (AppUrl.totalPages s)
              (AppUrl.scale s) (AppUrl.rotation s).

(** An event of [App.tsx], as an event of [part_000]. *)
Definition as_url_event (e : App.Event) : AppUrl.Event :=
  match e with
  | App.FileChange sel => AppUrl.FileChange sel
  | App.ReaderLoad result => AppUrl.ReaderLoad result
  | App.LoadFulfilled pdf => AppUrl.LoadFulfilled pdf
  | App.LoadRejected error => AppUrl.LoadRejected error
  | App.ReaderError => AppUrl.ReaderError
  | App.PrevPage => AppUrl.PrevPage
  | App.NextPage => AppUrl.NextPage
  | App.ZoomIn => AppUrl.ZoomIn
  | App.ZoomOut => AppUrl.ZoomOut
  | App.RotateRight => AppUrl.RotateRight
  | App.RotateLeft => AppUrl.RotateLeft
  | App.Render o => AppUrl.Render o
  end.

(** ** What goes into the log *)

Definition quarter_turn (r : Z) : bool := existsb (Z.eqb r) rotation_values.

(** A call the library would refuse: a page that is not one of the
    document's, a scale outside [0.25, 3], a rotation that is not a
    quarter turn. *)
Definition bad_call (e : Effect) : bool :=
  match e with
  | GetPage d n => negb ((1 <=? n) && (n <=? numPages d))
  | GetViewport sc r =>
    negb (PrimFloat.leb 0.25 sc && PrimFloat.leb sc 3 && quarter_turn r)
  | _ => false
  end.

Definition is_alert (e : Effect) : bool :=
  match e with
  | Alert _ => true
  | _ => false
  end.

(** A computation that logs no effect of kind [p]. *)
Definition silent {S A} (p : Effect -> bool) (m : M S A) : Prop :=
  forall w, filter p (log (exec m w)) = filter p (log w).

(** The events of the URL loader and of the control surface. *)
Definition url_or_control (e : AppUrl.Event) : bool :=
  match e with
  | AppUrl.LoadUrl _ | AppUrl.UrlFulfilled _ | AppUrl.UrlRejected _ _
  | AppUrl.PrevPage | AppUrl.NextPage | AppUrl.ZoomIn | AppUrl.ZoomOut
  | AppUrl.RotateRight | AppUrl.RotateLeft => true
  | _ => false
  end.

(** The loading flag and the URL error are not up together, and a URL
    error is a string that counts as true. *)
Definition load_status_ok (s : AppUrl.State) : Prop :=
  (AppUrl.isLoadingUrl s = true -> AppUrl.urlError s = None) /\
  (forall m, AppUrl.urlError s = Some m -> truthy m = true).

(** ** The monad's frame rules *)

Lemma keeps_ret {S A} (a : A) : keeps_state (@ret S A a).
Proof. intro w. reflexivity. Qed.

Lemma keeps_bind {S A B} (m : M S A) (k : A -> M S B) :
  keeps_state m -> (forall a, keeps_state (k a)) -> keeps_state (bind m k).
Proof.
  intros Hm Hk w. specialize (Hm w). unfold exec, bind in *.
  destruct (m w) as [[a|e] w'] eqn:E; cbn in *.
  - rewrite <- Hm. apply (Hk a w').
  - exact Hm.
Qed.

Lemma keeps_try {S A} (m : M S A) (h : Thrown -> M S A) :
  keeps_state m -> (forall e, keeps_state (h e)) -> keeps_state (try_catch m h).
Proof.
  intros Hm Hh w. specialize (Hm w). unfold exec, try_catch in *.
  destruct (m w) as [[a|e] w'] eqn:E; cbn in *.
  - exact Hm.
  - rewrite <- Hm. apply (Hh e w').
Qed.

Lemma keeps_get_state {S} : keeps_state (@get_state S).
Proof. intro w. reflexivity. Qed.

Lemma keeps_get_dom {S} : keeps_state (@get_dom S).
Proof. intro w. reflexivity. Qed.

Lemma keeps_update_dom {S} (f : Dom -> Dom) : keeps_state (@update_dom S f).
Proof. intro w. reflexivity. Qed.

Lemma keeps_emit {S} (e : Effect) : keeps_state (@emit S e).
Proof. intro w. reflexivity. Qed.

Lemma keeps_call {S A} (e : Effect) (r : Result A) : keeps_state (@call S A e r).
Proof. intro w. reflexivity. Qed.

Lemma keeps_alert {S} (msg : string) : keeps_state (@alert S msg).
Proof. apply keeps_emit. Qed.

Lemma keeps_console_error {S} (l : string) : keeps_state (@console_error S l).
Proof. apply keeps_emit. Qed.

Lemma keeps_clear_file_input {S} : keeps_state (@clear_file_input S).
Proof. apply keeps_update_dom. Qed.

Lemma keeps_set_canvas {S} (f : Canvas -> Canvas) : keeps_state (@set_canvas S f).
Proof. apply keeps_update_dom. Qed.

Lemma keeps_set_text_layer {S} (f : TextLayer -> TextLayer) :
  keeps_state (@set_text_layer S f).
Proof. apply keeps_update_dom. Qed.

Create HintDb frame.
#[export] Hint Resolve keeps_ret keeps_get_state keeps_get_dom keeps_update_dom
  keeps_emit keeps_call keeps_alert keeps_console_error keeps_clear_file_input
  keeps_set_canvas keeps_set_text_layer : frame.

(** Walks a handler that calls no setter. *)
Ltac frame :=
  repeat first
    [ solve [ auto with frame ]
    | apply keeps_bind; [ | intro ]
    | apply keeps_try; [ | intro ]
    | match goal with
      | |- keeps_state (match ?x with _ => _ end) => destruct x
      end ].

Lemma App_renderPage_try_keeps o s doc n :
  keeps_state (App.renderPage_try o s doc n).
Proof. unfold App.renderPage_try. frame. Qed.

Lemma App_renderPage_keeps o n : keeps_state (App.renderPage o n).
Proof.
  unfold App.renderPage, App.renderPage_catch. frame.
Qed.

Lemma AppUrl_renderPage_try_keeps o s doc n :
  keeps_state (AppUrl.renderPage_try o s doc n).
Proof. unfold AppUrl.renderPage_try. frame. Qed.

Lemma AppUrl_renderPage_keeps o n : keeps_state (AppUrl.renderPage o n).
Proof.
  unfold AppUrl.renderPage, AppUrl.renderPage_catch. frame.
Qed.

Lemma App_render_effect_keeps o : keeps_state (App.render_effect o).
Proof. unfold App.render_effect. frame; apply App_renderPage_keeps. Qed.

Lemma AppUrl_render_effect_keeps o : keeps_state (AppUrl.render_effect o).
Proof. unfold AppUrl.render_effect. frame; apply AppUrl_renderPage_keeps. Qed.

(** ** The orbit of the scale *)

Ltac find_in_list := vm_compute; repeat first [ left; reflexivity | right ].
Ltac each_of_orbit tac :=
  unfold scale_orbit; repeat (apply Forall_cons; [ tac | ]); apply Forall_nil.

Lemma scale_orbit_start : In 1.0%float scale_orbit.
Proof. find_in_list. Qed.

Lemma scale_orbit_zoom_in :
  Forall (fun s => In (zoom_in s) scale_orbit) scale_orbit.
Proof. each_of_orbit find_in_list. Qed.

Lemma scale_orbit_zoom_out :
  Forall (fun s => In (zoom_out s) scale_orbit) scale_orbit.
Proof. each_of_orbit find_in_list. Qed.

Lemma scale_orbit_bounds : Forall scale_in_bounds scale_orbit.
Proof. each_of_orbit ltac:(split; vm_compute; reflexivity). Qed.

Lemma scale_orbit_step_in :
  Forall (fun s => zoom_in s =
                   if PrimFloat.leb (s + 0.2) 3 then (s + 0.2)%float else 3%float)
         scale_orbit.
Proof. each_of_orbit ltac:(vm_compute; reflexivity). Qed.

Lemma scale_orbit_step_out :
  Forall (fun s => zoom_out s =
                   if PrimFloat.leb 0.25 (s - 0.2) then (s - 0.2)%float
                   else 0.25%float)
         scale_orbit.
Proof. each_of_orbit ltac:(vm_compute; reflexivity). Qed.

Lemma in_orbit (P : float -> Prop) (s : float) :
  Forall P scale_orbit -> In s scale_orbit -> P s.
Proof. intros H Hs. rewrite Forall_forall in H. exact (H s Hs). Qed.

(** ** What one event does to the state *)

Ltac open_world w :=
  let s := fresh "s" in
  destruct w as [s ? ?]; destruct s.

Ltac crush_step :=
  cbv [App.step App.handle AppUrl.step AppUrl.handle exec outcome bind ret
       get_state get_dom update_state update_dom emit call alert console_error
       clear_file_input set_to fst snd st dom log
       App.handleFileChange App.reader_onload App.reader_onload_fulfilled
       App.reader_onload_rejected App.reader_onerror
       App.goToPrevPage App.goToNextPage App.zoomIn App.zoomOut
       App.rotateClockwise App.rotateCounterClockwise
       App.setPdfDoc App.setPageNum App.setTotalPages App.setScale
       App.setRotation
       App.pdfDoc App.pageNum App.totalPages App.scale App.rotation
       AppUrl.handleFileChange AppUrl.reader_onload
       AppUrl.reader_onload_fulfilled AppUrl.reader_onload_rejected
       AppUrl.reader_onerror AppUrl.loadPdfFromUrl
       AppUrl.loadPdfFromUrl_fulfilled AppUrl.loadPdfFromUrl_rejected
       AppUrl.goToPrevPage AppUrl.goToNextPage AppUrl.zoomIn AppUrl.zoomOut
       AppUrl.rotateClockwise AppUrl.rotateCounterClockwise
       AppUrl.setPdfDoc AppUrl.setPageNum AppUrl.setTotalPages AppUrl.setScale
       AppUrl.setRotation AppUrl.setIsLoadingUrl AppUrl.setUrlError
       AppUrl.pdfDoc AppUrl.pageNum AppUrl.totalPages AppUrl.scale
       AppUrl.rotation AppUrl.isLoadingUrl AppUrl.urlError].

(** The state after [App.step], event by event. *)
Lemma App_step_state (w : World App.State) (e : App.Event) :
  st (App.step w e) =
  let s := st w in
  match e with
  | App.LoadFulfilled pdf =>
    App.mkState (Some pdf) 1 (numPages pdf) 1.0%float 0
  | App.LoadRejected _ =>
    App.mkState None (App.pageNum s) 0 (App.scale s) (App.rotation s)
  | App.PrevPage =>
    if 1 <? App.pageNum s
    then App.mkState (App.pdfDoc s) (App.pageNum s - 1) (App.totalPages s)
                     (App.scale s) (App.rotation s)
    else s
  | App.NextPage =>
    if App.pageNum s <? App.totalPages s
    then App.mkState (App.pdfDoc s) (App.pageNum s + 1) (App.totalPages s)
                     (App.scale s) (App.rotation s)
    else s
  | App.ZoomIn =>
    App.mkState (App.pdfDoc s) (App.pageNum s) (App.totalPages s)
                (zoom_in (App.scale s)) (App.rotation s)
  | App.ZoomOut =>
    App.mkState (App.pdfDoc s) (App.pageNum s) (App.totalPages s)
                (zoom_out (App.scale s)) (App.rotation s)
  | App.RotateRight =>
    App.mkState (App.pdfDoc s) (App.pageNum s) (App.totalPages s)
                (App.scale s) (rotate_cw (App.rotation s))
  | App.RotateLeft =>
    App.mkState (App.pdfDoc s) (App.pageNum s) (App.totalPages s)
                (App.scale s) (rotate_ccw (App.rotation s))
  | App.FileChange _ | App.ReaderLoad _ | App.ReaderError | App.Render _ => s
  end.
Proof.
  destruct e; try (open_world w; crush_step; reflexivity).
  - destruct sel as [f|]; [ destruct (String.eqb (file_type f) "application/pdf") eqn:E | ];
      open_world w; crush_step; rewrite ?E; reflexivity.
  - destruct result; open_world w; crush_step; reflexivity.
  - open_world w; crush_step. destruct (1 <? pageNum); reflexivity.
  - open_world w; crush_step. destruct (pageNum <? totalPages); reflexivity.
  - apply App_render_effect_keeps.
Qed.

(** The state after [AppUrl.step], event by event. *)
Lemma AppUrl_step_state (w : World AppUrl.State) (e : AppUrl.Event) :
  st (AppUrl.step w e) =
  let s := st w in
  match e with
  | AppUrl.FileChange sel =>
    if is_pdf_selection sel
    then AppUrl.mkState (AppUrl.pdfDoc s) (AppUrl.pageNum s)
           (AppUrl.totalPages s) (AppUrl.scale s) (AppUrl.rotation s) false None
    else s
  | AppUrl.LoadFulfilled pdf =>
    AppUrl.mkState (Some pdf) 1 (numPages pdf) 1.0%float 0
                   (AppUrl.isLoadingUrl s) (AppUrl.urlError s)
  | AppUrl.LoadRejected _ =>
    AppUrl.mkState None (AppUrl.pageNum s) 0 (AppUrl.scale s)
                   (AppUrl.rotation s) (AppUrl.isLoadingUrl s) (AppUrl.urlError s)
  | AppUrl.LoadUrl _ =>
    if AppUrl.isLoadingUrl s then s
    else AppUrl.mkState None (AppUrl.pageNum s) (AppUrl.totalPages s)
           (AppUrl.scale s) (AppUrl.rotation s) true None
  | AppUrl.UrlFulfilled pdf =>
    AppUrl.mkState (Some pdf) 1 (numPages pdf) 1.0%float 0 false
                   (AppUrl.urlError s)
  | AppUrl.UrlRejected url err =>
    AppUrl.mkState None (AppUrl.pageNum s) 0 (AppUrl.scale s)
                   (AppUrl.rotation s) false
                   (Some (AppUrl.url_error_message url err))
  | AppUrl.PrevPage =>
    if 1 <? AppUrl.pageNum s
    then AppUrl.mkState (AppUrl.pdfDoc s) (AppUrl.pageNum s - 1)
           (AppUrl.totalPages s) (AppUrl.scale s) (AppUrl.rotation s)
           (AppUrl.isLoadingUrl s) (AppUrl.urlError s)
    else s
  | AppUrl.NextPage =>
    if AppUrl.pageNum s <? AppUrl.totalPages s
    then AppUrl.mkState (AppUrl.pdfDoc s) (AppUrl.pageNum s + 1)
           (AppUrl.totalPages s) (AppUrl.scale s) (AppUrl.rotation s)
           (AppUrl.isLoadingUrl s) (AppUrl.urlError s)
    else s
  | AppUrl.ZoomIn =>
    AppUrl.mkState (AppUrl.pdfDoc s) (AppUrl.pageNum s) (AppUrl.totalPages s)
      (zoom_in (AppUrl.scale s)) (AppUrl.rotation s)
      (AppUrl.isLoadingUrl s) (AppUrl.urlError s)
  | AppUrl.ZoomOut =>
    AppUrl.mkState (AppUrl.pdfDoc s) (AppUrl.pageNum s) (AppUrl.totalPages s)
      (zoom_out (AppUrl.scale s)) (AppUrl.rotation s)
      (AppUrl.isLoadingUrl s) (AppUrl.urlError s)
  | AppUrl.RotateRight =>
    AppUrl.mkState (AppUrl.pdfDoc s) (AppUrl.pageNum s) (AppUrl.totalPages s)
      (AppUrl.scale s) (rotate_cw (AppUrl.rotation s))
      (AppUrl.isLoadingUrl s) (AppUrl.urlError s)
  | AppUrl.RotateLeft =>
    AppUrl.mkState (AppUrl.pdfDoc s) (AppUrl.pageNum s) (AppUrl.totalPages s)
      (AppUrl.scale s) (rotate_ccw (AppUrl.rotation s))
      (AppUrl.isLoadingUrl s) (AppUrl.urlError s)
  | AppUrl.ReaderLoad _ | AppUrl.ReaderError | AppUrl.Render _ => s
  end.
Proof.
  destruct e; try (open_world w; crush_step; reflexivity).
  - destruct sel as [f|]; cbn [is_pdf_selection];
      [ destruct (String.eqb (file_type f) "application/pdf") eqn:E | ];
      open_world w; crush_step; rewrite ?E; reflexivity.
  - destruct result; open_world w; crush_step; reflexivity.
  - open_world w; crush_step. destruct isLoadingUrl; reflexivity.
  - open_world w; crush_step. destruct (1 <? pageNum); reflexivity.
  - open_world w; crush_step. destruct (pageNum <? totalPages); reflexivity.
  - apply AppUrl_render_effect_keeps.
Qed.

Lemma App_run_app es1 es2 w :
  App.run (es1 ++ es2) w = App.run es2 (App.run es1 w).
Proof. apply fold_left_app. Qed.

Lemma AppUrl_run_app es1 es2 w :
  AppUrl.run (es1 ++ es2) w = AppUrl.run es2 (AppUrl.run es1 w).
Proof. apply fold_left_app. Qed.

(** A property of the state that every admitted event preserves holds
    along every trace. *)
Lemma App_run_invariant (P : App.State -> Prop) (Q : App.Event -> Prop) :
  (forall w e, Q e -> P (st w) -> P (st (App.step w e))) ->
  forall es w, Forall Q es -> P (st w) -> P (st (App.run es w)).
Proof.
  intros Hstep es. induction es as [|e es IH]; intros w HQ HP; cbn.
  - exact HP.
  - inversion HQ; subst. apply IH; [ assumption | ]. now apply Hstep.
Qed.

Lemma AppUrl_run_invariant (P : AppUrl.State -> Prop) (Q : AppUrl.Event -> Prop) :
  (forall w e, Q e -> P (st w) -> P (st (AppUrl.step w e))) ->
  forall es w, Forall Q es -> P (st w) -> P (st (AppUrl.run es w)).
Proof.
  intros Hstep es. induction es as [|e es IH]; intros w HQ HP; cbn.
  - exact HP.
  - inversion HQ; subst. apply IH; [ assumption | ]. now apply Hstep.
Qed.

Lemma Forall_any {A} (l : list A) : Forall (fun _ => True) l.
Proof. induction l; constructor; auto. Qed.

(** ** The page number stays on a page of the document *)

Lemma App_page_ok_step w e :
  App_has_pages e -> App_page_ok (st w) -> App_page_ok (st (App.step w e)).
Proof.
  intros He H. rewrite App_step_state. unfold App_page_ok in *.
  destruct (st w) as [d p t sc r]; cbn in *.
  destruct e; cbn; try exact H; try discriminate.
  - intros doc [= <-]. specialize (He pdf eq_refl). lia.
  - destruct (1 <? p) eqn:E; cbn; [ | exact H ].
    intros doc Hd. specialize (H doc Hd). apply Z.ltb_lt in E. lia.
  - destruct (p <? t) eqn:E; cbn; [ | exact H ].
    intros doc Hd. specialize (H doc Hd). apply Z.ltb_lt in E. lia.
Qed.

Lemma AppUrl_page_ok_step w e :
  AppUrl_has_pages e -> AppUrl_page_ok (st w) ->
  AppUrl_page_ok (st (AppUrl.step w e)).
Proof.
  intros He H. rewrite AppUrl_step_state. unfold AppUrl_page_ok in *.
  destruct (st w) as [d p t sc r fl ue]; cbn in *.
  destruct e; cbn; try exact H; try discriminate.
  - destruct (is_pdf_selection sel); exact H.
  - intros doc [= <-]. specialize (He pdf eq_refl). lia.
  - destruct fl; cbn; [ exact H | discriminate ].
  - intros doc [= <-]. specialize (He pdf eq_refl). lia.
  - destruct (1 <? p) eqn:E; cbn; [ | exact H ].
    intros doc Hd. specialize (H doc Hd). apply Z.ltb_lt in E. lia.
  - destruct (p <? t) eqn:E; cbn; [ | exact H ].
    intros doc Hd. specialize (H doc Hd). apply Z.ltb_lt in E. lia.
Qed.

(** C1. Along every sequence of events of either component (file and URL
    loads with their outcomes, page navigation, zoom, rotation, renders),
    started from the [useState] values, whenever [pdfDoc] holds a document
    the page number is in [1, totalPages] and [totalPages] is that
    document's [numPages]; a fulfilled load, by file or by URL, sets the
    page to 1 and [totalPages] to [numPages]; and the two navigation
    handlers keep a page number that is in the range in the range.  The
    documents the library delivers have at least one page. *)
Theorem page_in_range (d : Dom) (l : list Effect) :
  (forall es, Forall App_has_pages es ->
     App_page_ok (st (App.run es (mkWorld App.initial d l)))) /\
  (forall es, Forall AppUrl_has_pages es ->
     AppUrl_page_ok (st (AppUrl.run es (mkWorld AppUrl.initial d l)))) /\
  (forall w pdf,
     let s := st (exec (App.reader_onload_fulfilled pdf) w) in
     App.pdfDoc s = Some pdf /\ App.pageNum s = 1 /\
     App.totalPages s = numPages pdf) /\
  (forall w pdf,
     let s := st (exec (AppUrl.reader_onload_fulfilled pdf) w) in
     AppUrl.pdfDoc s = Some pdf /\ AppUrl.pageNum s = 1 /\
     AppUrl.totalPages s = numPages pdf) /\
  (forall w pdf,
     let s := st (exec (AppUrl.loadPdfFromUrl_fulfilled pdf) w) in
     AppUrl.pdfDoc s = Some pdf /\ AppUrl.pageNum s = 1 /\
     AppUrl.totalPages s = numPages pdf) /\
  (forall w, 1 <= App.pageNum (st w) <= App.totalPages (st w) ->
     let p := st (exec App.goToPrevPage w) in
     let n := st (exec App.goToNextPage w) in
     1 <= App.pageNum p <= App.totalPages p /\
     1 <= App.pageNum n <= App.totalPages n) /\
  (forall w, 1 <= AppUrl.pageNum (st w) <= AppUrl.totalPages (st w) ->
     let p := st (exec AppUrl.goToPrevPage w) in
     let n := st (exec AppUrl.goToNextPage w) in
     1 <= AppUrl.pageNum p <= AppUrl.totalPages p /\
     1 <= AppUrl.pageNum n <= AppUrl.totalPages n).
Proof.
  split; [ | split; [ | split; [ | split; [ | split; [ | split ] ] ] ] ].
  - intros es Hes.
    apply (App_run_invariant App_page_ok App_has_pages); auto.
    + intros w e. apply App_page_ok_step.
    + intros doc Hd. discriminate.
  - intros es Hes.
    apply (AppUrl_run_invariant AppUrl_page_ok AppUrl_has_pages); auto.
    + intros w e. apply AppUrl_page_ok_step.
    + intros doc Hd. discriminate.
  - intros w pdf. open_world w. crush_step. auto.
  - intros w pdf. open_world w. crush_step. auto.
  - intros w pdf. open_world w. crush_step. auto.
  - intros w H p n. subst p n.
    change (exec App.goToPrevPage w) with (App.step w App.PrevPage).
    change (exec App.goToNextPage w) with (App.step w App.NextPage).
    rewrite !App_step_state; cbn.
    destruct (1 <? _) eqn:E1; destruct (_ <? App.totalPages _) eqn:E2; cbn;
      rewrite ?Z.ltb_lt in *; lia.
  - intros w H p n. subst p n.
    change (exec AppUrl.goToPrevPage w) with (AppUrl.step w AppUrl.PrevPage).
    change (exec AppUrl.goToNextPage w) with (AppUrl.step w AppUrl.NextPage).
    rewrite !AppUrl_step_state; cbn.
    destruct (1 <? _) eqn:E1; destruct (_ <? AppUrl.totalPages _) eqn:E2; cbn;
      rewrite ?Z.ltb_lt in *; lia.
Qed.

Lemma three_pages_trace_has_pages : Forall App_has_pages three_pages_trace.
Proof.
  unfold three_pages_trace.
  repeat (apply Forall_cons; [ intros pdf [= <-]; cbn; lia | ]).
  apply Forall_nil.
Defined.

Lemma url_then_file_trace_has_pages :
  Forall AppUrl_has_pages url_then_file_trace.
Proof.
  unfold url_then_file_trace.
  repeat (apply Forall_cons; [ intros pdf [= <-]; cbn; lia | ]).
  apply Forall_nil.
Defined.

Lemma page_in_range_witness :
  (App.pdfDoc (st (App.run three_pages_trace (mkWorld App.initial dom0 [])))
     = Some doc3 /\
   1 <= App.pageNum (st (App.run three_pages_trace (mkWorld App.initial dom0 [])))
     <= App.totalPages (st (App.run three_pages_trace (mkWorld App.initial dom0 []))) /\
   App.totalPages (st (App.run three_pages_trace (mkWorld App.initial dom0 [])))
     = numPages doc3) /\
  (AppUrl.pdfDoc
     (st (AppUrl.run url_then_file_trace (mkWorld AppUrl.initial dom0 [])))
     = Some doc3 /\
   1 <= AppUrl.pageNum
          (st (AppUrl.run url_then_file_trace (mkWorld AppUrl.initial dom0 [])))
     <= AppUrl.totalPages
          (st (AppUrl.run url_then_file_trace (mkWorld AppUrl.initial dom0 []))) /\
   AppUrl.totalPages
     (st (AppUrl.run url_then_file_trace (mkWorld AppUrl.initial dom0 [])))
     = numPages doc3).
Proof.
  destruct (page_in_range dom0 []) as [HA [HU _]].
  split.
  - split; [ reflexivity | ].
    apply (HA three_pages_trace three_pages_trace_has_pages doc3). reflexivity.
  - split; [ reflexivity | ].
    apply (HU url_then_file_trace url_then_file_trace_has_pages doc3).
    reflexivity.
Defined.

(** ** Page navigation *)

(** C2. In both components, [goToPrevPage] leaves everything as it is when
    the page number is 1, and otherwise takes exactly 1 off the page
    number; [goToNextPage] leaves everything as it is when the page number
    is [totalPages], and otherwise adds exactly 1.  The page number is on
    a page of the document (1 <= pageNum <= totalPages), as it is whenever
    the buttons are shown. *)
Theorem page_navigation (wa : World App.State) (wu : World AppUrl.State) :
  1 <= App.pageNum (st wa) <= App.totalPages (st wa) ->
  1 <= AppUrl.pageNum (st wu) <= AppUrl.totalPages (st wu) ->
  (App.pageNum (st wa) = 1 -> exec App.goToPrevPage wa = wa) /\
  (App.pageNum (st wa) <> 1 ->
     exec App.goToPrevPage wa =
     mkWorld (App.mkState (App.pdfDoc (st wa)) (App.pageNum (st wa) - 1)
                (App.totalPages (st wa)) (App.scale (st wa))
                (App.rotation (st wa)))
             (dom wa) (log wa)) /\
  (App.pageNum (st wa) = App.totalPages (st wa) ->
     exec App.goToNextPage wa = wa) /\
  (App.pageNum (st wa) <> App.totalPages (st wa) ->
     exec App.goToNextPage wa =
     mkWorld (App.mkState (App.pdfDoc (st wa)) (App.pageNum (st wa) + 1)
                (App.totalPages (st wa)) (App.scale (st wa))
                (App.rotation (st wa)))
             (dom wa) (log wa)) /\
  (AppUrl.pageNum (st wu) = 1 -> exec AppUrl.goToPrevPage wu = wu) /\
  (AppUrl.pageNum (st wu) <> 1 ->
     exec AppUrl.goToPrevPage wu =
     mkWorld (AppUrl.mkState (AppUrl.pdfDoc (st wu)) (AppUrl.pageNum (st wu) - 1)
                (AppUrl.totalPages (st wu)) (AppUrl.scale (st wu))
                (AppUrl.rotation (st wu)) (AppUrl.isLoadingUrl (st wu))
                (AppUrl.urlError (st wu)))
             (dom wu) (log wu)) /\
  (AppUrl.pageNum (st wu) = AppUrl.totalPages (st wu) ->
     exec AppUrl.goToNextPage wu = wu) /\
  (AppUrl.pageNum (st wu) <> AppUrl.totalPages (st wu) ->
     exec AppUrl.goToNextPage wu =
     mkWorld (AppUrl.mkState (AppUrl.pdfDoc (st wu)) (AppUrl.pageNum (st wu) + 1)
                (AppUrl.totalPages (st wu)) (AppUrl.scale (st wu))
                (AppUrl.rotation (st wu)) (AppUrl.isLoadingUrl (st wu))
                (AppUrl.urlError (st wu)))
             (dom wu) (log wu)).
Proof.
  intros Ha Hu.
  destruct wa as [[da pa ta sa ra] doma la].
  destruct wu as [[du pu tu su ru fu eu] domu lu].
  cbn in Ha, Hu. crush_step.
  repeat split; intro H.
  - destruct (1 <? pa) eqn:E; [ apply Z.ltb_lt in E; lia | reflexivity ].
  - destruct (1 <? pa) eqn:E; [ reflexivity | apply Z.ltb_ge in E; lia ].
  - destruct (pa <? ta) eqn:E; [ apply Z.ltb_lt in E; lia | reflexivity ].
  - destruct (pa <? ta) eqn:E; [ reflexivity | apply Z.ltb_ge in E; lia ].
  - destruct (1 <? pu) eqn:E; [ apply Z.ltb_lt in E; lia | reflexivity ].
  - destruct (1 <? pu) eqn:E; [ reflexivity | apply Z.ltb_ge in E; lia ].
  - destruct (pu <? tu) eqn:E; [ apply Z.ltb_lt in E; lia | reflexivity ].
  - destruct (pu <? tu) eqn:E; [ reflexivity | apply Z.ltb_ge in E; lia ].
Qed.

Lemma page_navigation_witness :
  exec App.goToPrevPage
       (mkWorld (App.mkState (Some doc3) 1 3 1.0%float 0) dom1 []) =
    mkWorld (App.mkState (Some doc3) 1 3 1.0%float 0) dom1 [] /\
  exec App.goToNextPage
       (mkWorld (App.mkState (Some doc3) 1 3 1.0%float 0) dom1 []) =
    mkWorld (App.mkState (Some doc3) 2 3 1.0%float 0) dom1 [] /\
  exec AppUrl.goToNextPage
       (mkWorld (AppUrl.mkState (Some doc3) 3 3 1.0%float 0 false None) dom1 []) =
    mkWorld (AppUrl.mkState (Some doc3) 3 3 1.0%float 0 false None) dom1 [] /\
  exec AppUrl.goToPrevPage
       (mkWorld (AppUrl.mkState (Some doc3) 3 3 1.0%float 0 false None) dom1 []) =
    mkWorld (AppUrl.mkState (Some doc3) 2 3 1.0%float 0 false None) dom1 [].
Proof.
  destruct (page_navigation
              (mkWorld (App.mkState (Some doc3) 1 3 1.0%float 0) dom1 [])
              (mkWorld (AppUrl.mkState (Some doc3) 3 3 1.0%float 0 false None)
                       dom1 []))
    as (P1 & _ & _ & N2 & _ & P2' & N1' & _); cbn; try lia.
  split; [ | split; [ | split ] ].
  - apply P1. reflexivity.
  - apply N2. cbn. lia.
  - apply N1'. reflexivity.
  - apply P2'. cbn. lia.
Defined.

(** ** Zoom *)

Lemma App_scale_orbit_step w e :
  In (App.scale (st w)) scale_orbit ->
  In (App.scale (st (App.step w e))) scale_orbit.
Proof.
  intro H. rewrite App_step_state.
  destruct (st w) as [d p t sc r]; cbn in *.
  destruct e; cbn; try exact H; try apply scale_orbit_start.
  - destruct (1 <? p); exact H.
  - destruct (p <? t); exact H.
  - exact (in_orbit _ sc scale_orbit_zoom_in H).
  - exact (in_orbit _ sc scale_orbit_zoom_out H).
Qed.

Lemma AppUrl_scale_orbit_step w e :
  In (AppUrl.scale (st w)) scale_orbit ->
  In (AppUrl.scale (st (AppUrl.step w e))) scale_orbit.
Proof.
  intro H. rewrite AppUrl_step_state.
  destruct (st w) as [d p t sc r fl ue]; cbn in *.
  destruct e; cbn; try exact H; try apply scale_orbit_start.
  - destruct (is_pdf_selection sel); exact H.
  - destruct fl; exact H.
  - destruct (1 <? p); exact H.
  - destruct (p <? t); exact H.
  - exact (in_orbit _ sc scale_orbit_zoom_in H).
  - exact (in_orbit _ sc scale_orbit_zoom_out H).
Qed.

Lemma App_scale_orbit d l es :
  In (App.scale (st (App.run es (mkWorld App.initial d l)))) scale_orbit.
Proof.
  apply (App_run_invariant (fun s => In (App.scale s) scale_orbit)
                           (fun _ => True)).
  - intros w e _. apply App_scale_orbit_step.
  - apply Forall_any.
  - apply scale_orbit_start.
Qed.

Lemma AppUrl_scale_orbit d l es :
  In (AppUrl.scale (st (AppUrl.run es (mkWorld AppUrl.initial d l)))) scale_orbit.
Proof.
  apply (AppUrl_run_invariant (fun s => In (AppUrl.scale s) scale_orbit)
                              (fun _ => True)).
  - intros w e _. apply AppUrl_scale_orbit_step.
  - apply Forall_any.
  - apply scale_orbit_start.
Qed.

(** C3. In both components, along every sequence of events from the
    [useState] values (so from every scale the component can reach), the
    scale is within [0.25, 3.0], bounds included, before and after each
    zoom call; [zoomIn] sets the scale to [scale + 0.2], or to 3 when that
    sum is above 3; [zoomOut] sets it to [scale - 0.2], or to 0.25 when
    that difference is below 0.25.  Sums, differences and comparisons are
    those of binary64 numbers, as in the source. *)
Theorem zoom_bounds_and_steps (d : Dom) (l : list Effect) :
  (forall es,
     let w := App.run es (mkWorld App.initial d l) in
     let s := App.scale (st w) in
     scale_in_bounds s /\
     scale_in_bounds (App.scale (st (exec App.zoomIn w))) /\
     scale_in_bounds (App.scale (st (exec App.zoomOut w))) /\
     App.scale (st (exec App.zoomIn w)) =
       (if PrimFloat.leb (s + 0.2) 3 then (s + 0.2)%float else 3%float) /\
     App.scale (st (exec App.zoomOut w)) =
       (if PrimFloat.leb 0.25 (s - 0.2) then (s - 0.2)%float else 0.25%float)) /\
  (forall es,
     let w := AppUrl.run es (mkWorld AppUrl.initial d l) in
     let s := AppUrl.scale (st w) in
     scale_in_bounds s /\
     scale_in_bounds (AppUrl.scale (st (exec AppUrl.zoomIn w))) /\
     scale_in_bounds (AppUrl.scale (st (exec AppUrl.zoomOut w))) /\
     AppUrl.scale (st (exec AppUrl.zoomIn w)) =
       (if PrimFloat.leb (s + 0.2) 3 then (s + 0.2)%float else 3%float) /\
     AppUrl.scale (st (exec AppUrl.zoomOut w)) =
       (if PrimFloat.leb 0.25 (s - 0.2) then (s - 0.2)%float else 0.25%float)).
Proof.
  split; intros es w s.
  - pose proof (App_scale_orbit d l es) as H. fold w in H. fold s in H.
    change (exec App.zoomIn w) with (App.step w App.ZoomIn).
    change (exec App.zoomOut w) with (App.step w App.ZoomOut).
    rewrite !App_step_state; cbn. fold s.
    split; [ exact (in_orbit _ s scale_orbit_bounds H) | ].
    split; [ apply (in_orbit _ _ scale_orbit_bounds);
             exact (in_orbit _ s scale_orbit_zoom_in H) | ].
    split; [ apply (in_orbit _ _ scale_orbit_bounds);
             exact (in_orbit _ s scale_orbit_zoom_out H) | ].
    split.
    + exact (in_orbit _ s scale_orbit_step_in H).
    + exact (in_orbit _ s scale_orbit_step_out H).
  - pose proof (AppUrl_scale_orbit d l es) as H. fold w in H. fold s in H.
    change (exec AppUrl.zoomIn w) with (AppUrl.step w AppUrl.ZoomIn).
    change (exec AppUrl.zoomOut w) with (AppUrl.step w AppUrl.ZoomOut).
    rewrite !AppUrl_step_state; cbn. fold s.
    split; [ exact (in_orbit _ s scale_orbit_bounds H) | ].
    split; [ apply (in_orbit _ _ scale_orbit_bounds);
             exact (in_orbit _ s scale_orbit_zoom_in H) | ].
    split; [ apply (in_orbit _ _ scale_orbit_bounds);
             exact (in_orbit _ s scale_orbit_zoom_out H) | ].
    split.
    + exact (in_orbit _ s scale_orbit_step_in H).
    + exact (in_orbit _ s scale_orbit_step_out H).
Qed.

(** Over the reals an unclamped step is 0.2 to within the rounding of one
    binary64 sum, and it is not 0.2 on the nose. *)
Lemma zoom_step_rounding :
  Forall (fun s =>
            (if PrimFloat.leb (s + 0.2) 3 then near_step s (zoom_in s) 1
             else true) = true /\
            (if PrimFloat.leb 0.25 (s - 0.2) then near_step s (zoom_out s) (-1)
             else true) = true)
         scale_orbit.
Proof. each_of_orbit ltac:(split; vm_compute; reflexivity). Qed.

Example zoom_step_not_exact :
  step_off 1.0 (zoom_in 1.0) 1 = Some 256.
Proof. vm_compute. reflexivity. Qed.

(** Five [zoomIn] from 1.0: the steps are rounded sums, and no clamp
    applies. *)
Example zoom_in_five_times :
  App.scale (st (App.run [App.ZoomIn; App.ZoomIn; App.ZoomIn; App.ZoomIn;
                          App.ZoomIn] (mkWorld App.initial dom0 [])))
  = 1.9999999999999998%float.
Proof. vm_compute. reflexivity. Qed.

(** ** Rotation *)

Lemma rotation_values_cases r :
  In r rotation_values -> r = 0 \/ r = 90 \/ r = 180 \/ r = 270.
Proof. cbn. intuition auto. Qed.

Lemma rotate_cw_closed r :
  In r rotation_values -> In (rotate_cw r) rotation_values.
Proof.
  intro H. apply rotation_values_cases in H.
  destruct H as [-> | [-> | [-> | ->]]]; vm_compute; auto.
Qed.

Lemma rotate_ccw_closed r :
  In r rotation_values -> In (rotate_ccw r) rotation_values.
Proof.
  intro H. apply rotation_values_cases in H.
  destruct H as [-> | [-> | [-> | ->]]]; vm_compute; auto 6.
Qed.

Lemma App_rotation_step w e :
  In (App.rotation (st w)) rotation_values ->
  In (App.rotation (st (App.step w e))) rotation_values.
Proof.
  intro H. rewrite App_step_state.
  destruct (st w) as [d p t sc r]; cbn [App.rotation] in *.
  destruct e; cbn [App.rotation]; try exact H; try (now left).
  - destruct (1 <? _); exact H.
  - destruct (_ <? _); exact H.
  - now apply rotate_cw_closed.
  - now apply rotate_ccw_closed.
Qed.

Lemma AppUrl_rotation_step w e :
  In (AppUrl.rotation (st w)) rotation_values ->
  In (AppUrl.rotation (st (AppUrl.step w e))) rotation_values.
Proof.
  intro H. rewrite AppUrl_step_state.
  destruct (st w) as [d p t sc r fl ue]; cbn [AppUrl.rotation] in *.
  destruct e; cbn [AppUrl.rotation]; try exact H; try (now left).
  - destruct (is_pdf_selection sel); exact H.
  - destruct (AppUrl.isLoadingUrl _); exact H.
  - destruct (1 <? _); exact H.
  - destruct (_ <? _); exact H.
  - now apply rotate_cw_closed.
  - now apply rotate_ccw_closed.
Qed.

Lemma App_rotation_values d l es :
  In (App.rotation (st (App.run es (mkWorld App.initial d l)))) rotation_values.
Proof.
  apply (App_run_invariant (fun s => In (App.rotation s) rotation_values)
                           (fun _ => True)).
  - intros w e _. apply App_rotation_step.
  - apply Forall_any.
  - now left.
Qed.

Lemma AppUrl_rotation_values d l es :
  In (AppUrl.rotation (st (AppUrl.run es (mkWorld AppUrl.initial d l))))
     rotation_values.
Proof.
  apply (AppUrl_run_invariant (fun s => In (AppUrl.rotation s) rotation_values)
                              (fun _ => True)).
  - intros w e _. apply AppUrl_rotation_step.
  - apply Forall_any.
  - now left.
Qed.

Lemma quarter_turn_facts r :
  In r rotation_values ->
  rotate_cw r = (r + 90) mod 360 /\
  rotate_ccw r = (r - 90) mod 360 /\
  0 <= r - 90 + 360 /\
  In (rotate_cw r) rotation_values /\
  In (rotate_ccw r) rotation_values.
Proof.
  intro H.
  split; [ | split; [ | split; [ | split ] ] ];
    try (now apply rotate_cw_closed); try (now apply rotate_ccw_closed);
    apply rotation_values_cases in H;
    destruct H as [-> | [-> | [-> | ->]]]; vm_compute; congruence.
Qed.

(** C4. In both components, along every sequence of events from the
    [useState] values (rotation 0), the rotation is one of 0, 90, 180 and
    270; [rotateClockwise] takes it to (rotation + 90) modulo 360 and
    [rotateCounterClockwise] to (rotation - 90) modulo 360, the latter
    computed as the remainder of rotation - 90 + 360, which is never
    negative. *)
Theorem rotation_quarter_turns (d : Dom) (l : list Effect) :
  (forall es,
     let w := App.run es (mkWorld App.initial d l) in
     let r := App.rotation (st w) in
     In r rotation_values /\
     App.rotation (st (exec App.rotateClockwise w)) = (r + 90) mod 360 /\
     App.rotation (st (exec App.rotateCounterClockwise w)) = (r - 90) mod 360 /\
     App.rotation (st (exec App.rotateCounterClockwise w))
       = Js.rem (r - 90 + 360) 360 /\
     0 <= r - 90 + 360 /\
     In (App.rotation (st (exec App.rotateClockwise w))) rotation_values /\
     In (App.rotation (st (exec App.rotateCounterClockwise w))) rotation_values) /\
  (forall es,
     let w := AppUrl.run es (mkWorld AppUrl.initial d l) in
     let r := AppUrl.rotation (st w) in
     In r rotation_values /\
     AppUrl.rotation (st (exec AppUrl.rotateClockwise w)) = (r + 90) mod 360 /\
     AppUrl.rotation (st (exec AppUrl.rotateCounterClockwise w))
       = (r - 90) mod 360 /\
     AppUrl.rotation (st (exec AppUrl.rotateCounterClockwise w))
       = Js.rem (r - 90 + 360) 360 /\
     0 <= r - 90 + 360 /\
     In (AppUrl.rotation (st (exec AppUrl.rotateClockwise w))) rotation_values /\
     In (AppUrl.rotation (st (exec AppUrl.rotateCounterClockwise w)))
        rotation_values).
Proof.
  split; intros es w r.
  - pose proof (App_rotation_values d l es) as H. fold w in H. fold r in H.
    change (exec App.rotateClockwise w) with (App.step w App.RotateRight).
    change (exec App.rotateCounterClockwise w) with (App.step w App.RotateLeft).
    rewrite !App_step_state; cbn [App.rotation]. fold r.
    destruct (quarter_turn_facts r H) as (A & B & C & D & E).
    repeat (split; [ assumption || reflexivity | ]). assumption.
  - pose proof (AppUrl_rotation_values d l es) as H. fold w in H. fold r in H.
    change (exec AppUrl.rotateClockwise w) with (AppUrl.step w AppUrl.RotateRight).
    change (exec AppUrl.rotateCounterClockwise w)
      with (AppUrl.step w AppUrl.RotateLeft).
    rewrite !AppUrl_step_state; cbn [AppUrl.rotation]. fold r.
    destruct (quarter_turn_facts r H) as (A & B & C & D & E).
    repeat (split; [ assumption || reflexivity | ]). assumption.
Qed.

(** Four [rotateClockwise] come back to 0. *)
Example rotate_four_times :
  App.rotation (st (App.run [App.RotateRight; App.RotateRight; App.RotateRight;
                             App.RotateRight] (mkWorld App.initial dom0 [])))
  = 0.
Proof. reflexivity. Qed.

(** ** Loading *)

(** C5. When a load is fulfilled with a document [pdf], by the file
    loader of either component or by the URL loader, the state that
    follows has [pdfDoc] set to [pdf], page 1, [totalPages] equal to
    [pdf.numPages], scale 1.0 and rotation 0, whatever the state was. *)
Theorem load_success_resets (pdf : PDFDocumentProxy) :
  (forall w,
     st (exec (App.reader_onload_fulfilled pdf) w)
     = App.mkState (Some pdf) 1 (numPages pdf) 1.0%float 0) /\
  (forall w,
     st (exec (AppUrl.reader_onload_fulfilled pdf) w)
     = AppUrl.mkState (Some pdf) 1 (numPages pdf) 1.0%float 0
         (AppUrl.isLoadingUrl (st w)) (AppUrl.urlError (st w))) /\
  (forall w,
     st (exec (AppUrl.loadPdfFromUrl_fulfilled pdf) w)
     = AppUrl.mkState (Some pdf) 1 (numPages pdf) 1.0%float 0 false
         (AppUrl.urlError (st w))) /\
  (forall w data,
     st (App.run [App.ReaderLoad (Some data); App.LoadFulfilled pdf] w)
     = App.mkState (Some pdf) 1 (numPages pdf) 1.0%float 0) /\
  (forall w url,
     AppUrl.isLoadingUrl (st w) = false ->
     st (AppUrl.run [AppUrl.LoadUrl url; AppUrl.UrlFulfilled pdf] w)
     = AppUrl.mkState (Some pdf) 1 (numPages pdf) 1.0%float 0 false None).
Proof.
  split; [ | split; [ | split; [ | split ] ] ].
  - intro w. open_world w. crush_step. reflexivity.
  - intro w. open_world w. crush_step. reflexivity.
  - intro w. open_world w. crush_step. reflexivity.
  - intros w data. open_world w. cbn [App.run fold_left]. crush_step.
    reflexivity.
  - intros w url H. open_world w. cbn in H. subst.
    cbn [AppUrl.run fold_left]. crush_step. reflexivity.
Qed.

Lemma load_success_resets_witness :
  st (AppUrl.run [AppUrl.LoadUrl "/test.pdf"; AppUrl.UrlFulfilled doc7]
        (mkWorld (AppUrl.mkState (Some doc3) 2 3 1.4%float 90 false
                    (Some "Failed to load PDF from URL.")) dom1 []))
  = AppUrl.mkState (Some doc7) 1 7 1.0%float 0 false None.
Proof.
  destruct (load_success_resets doc7) as (_ & _ & _ & _ & H).
  apply (H (mkWorld (AppUrl.mkState (Some doc3) 2 3 1.4%float 90 false
                       (Some "Failed to load PDF from URL.")) dom1 [])
           "/test.pdf").
  reflexivity.
Defined.

(** C6. In both components, a file selection that is empty or whose type
    is not [application/pdf] takes the invalid-file path: the alert
    'Please select a valid PDF file' is shown, the value of the file input
    is set to the empty string, no read is started, and every [useState]
    cell is left as it was. *)
Theorem invalid_file_rejected (sel : option File) :
  is_pdf_selection sel = false ->
  (forall w,
     exec (App.handleFileChange sel) w
     = mkWorld (st w)
         (mkDom (option_map (fun _ => "") (fileInputRef (dom w)))
                (canvasRef (dom w)) (textLayerRef (dom w)))
         (log w ++ [Alert "Please select a valid PDF file"])) /\
  (forall w,
     exec (AppUrl.handleFileChange sel) w
     = mkWorld (st w)
         (mkDom (option_map (fun _ => "") (fileInputRef (dom w)))
                (canvasRef (dom w)) (textLayerRef (dom w)))
         (log w ++ [Alert "Please select a valid PDF file"])).
Proof.
  intro H.
  split; intro w; destruct w as [s [fi cv tl] l];
    (destruct sel as [f|]; cbn in H; [ | ]);
    crush_step; rewrite ?H; destruct fi; reflexivity.
Qed.

Lemma invalid_file_rejected_witness :
  exec (AppUrl.handleFileChange (Some png_file))
       (mkWorld (AppUrl.mkState (Some doc3) 2 3 1.4%float 90 false None) dom1 [])
  = mkWorld (AppUrl.mkState (Some doc3) 2 3 1.4%float 90 false None)
      (mkDom (Some "") (canvasRef dom1) (textLayerRef dom1))
      [Alert "Please select a valid PDF file"] /\
  exec (App.handleFileChange None)
       (mkWorld (App.mkState (Some doc3) 2 3 1.4%float 90) dom1 [])
  = mkWorld (App.mkState (Some doc3) 2 3 1.4%float 90)
      (mkDom (Some "") (canvasRef dom1) (textLayerRef dom1))
      [Alert "Please select a valid PDF file"].
Proof.
  split.
  - apply (proj2 (invalid_file_rejected (Some png_file) eq_refl)
             (mkWorld (AppUrl.mkState (Some doc3) 2 3 1.4%float 90 false None)
                      dom1 [])).
  - apply (proj1 (invalid_file_rejected None eq_refl)
             (mkWorld (App.mkState (Some doc3) 2 3 1.4%float 90) dom1 [])).
Defined.

(** C10. In both components, when the file loader's [getDocument]
    promise is rejected, [pdfDoc] becomes null and [totalPages] 0, and the
    page number, the scale and the rotation (and, in the URL viewer, the
    loading flag and the URL error) keep the values they had. *)
Theorem file_load_failure_frame (error : Thrown) :
  (forall w,
     st (exec (App.reader_onload_rejected error) w)
     = App.mkState None (App.pageNum (st w)) 0 (App.scale (st w))
         (App.rotation (st w))) /\
  (forall w,
     st (exec (AppUrl.reader_onload_rejected error) w)
     = AppUrl.mkState None (AppUrl.pageNum (st w)) 0 (AppUrl.scale (st w))
         (AppUrl.rotation (st w)) (AppUrl.isLoadingUrl (st w))
         (AppUrl.urlError (st w))).
Proof.
  split; intro w; open_world w; crush_step; reflexivity.
Qed.

(** A failed parse after the reader delivered the bytes, from a state with
    a document on page 2 at scale 1.4 and rotation 90. *)
Example file_load_failure_sample :
  st (App.run [App.ReaderLoad (Some []);
               App.LoadRejected (ErrorObj "InvalidPDFException"
                                          "Invalid PDF structure.")]
        (mkWorld (App.mkState (Some doc3) 2 3 1.4%float 90) dom1 []))
  = App.mkState None 2 0 1.4%float 90.
Proof. reflexivity. Qed.

(** ** Rendering *)

Lemma App_renderPage_alerts o n w doc c e :
  App.pdfDoc (st w) = Some doc ->
  canvasRef (dom w) = Some c ->
  outcome (App.renderPage_try o (st w) doc n) w = Throw e ->
  log (exec (App.renderPage o n) w)
  = (log (exec (App.renderPage_try o (st w) doc n) w)
    ++ [ConsoleError "Error rendering page:";
        Alert ("Error rendering page: " ++ message_or_string e)%string])%list.
Proof.
  intros Hd Hc Ht.
  unfold App.renderPage, exec, outcome, bind, get_state, get_dom in *.
  rewrite Hd, Hc. unfold try_catch.
  destruct (App.renderPage_try o (st w) doc n w) as [[[]|e'] w'];
    cbn in Ht; [ discriminate | ].
  injection Ht as ->. cbn. rewrite <- app_assoc. reflexivity.
Qed.

Lemma AppUrl_renderPage_alerts o n w doc c t e :
  AppUrl.pdfDoc (st w) = Some doc ->
  canvasRef (dom w) = Some c ->
  textLayerRef (dom w) = Some t ->
  outcome (AppUrl.renderPage_try o (st w) doc n) w = Throw e ->
  log (exec (AppUrl.renderPage o n) w)
  = (log (exec (AppUrl.renderPage_try o (st w) doc n) w)
    ++ [ConsoleError "Error rendering page:";
        Alert ("Error rendering page: " ++ message_or_string e)%string])%list.
Proof.
  intros Hd Hc Hl Ht.
  unfold AppUrl.renderPage, exec, outcome, bind, get_state, get_dom in *.
  rewrite Hd, Hc, Hl. unfold try_catch.
  destruct (AppUrl.renderPage_try o (st w) doc n w) as [[[]|e'] w'];
    cbn in Ht; [ discriminate | ].
  injection Ht as ->. cbn. rewrite <- app_assoc. reflexivity.
Qed.

Lemma App_renderPage_returns o n : never_throws (App.renderPage o n).
Proof.
  intro w. unfold App.renderPage, outcome, bind, get_state, get_dom.
  destruct (App.pdfDoc (st w)); [ | reflexivity ].
  destruct (canvasRef (dom w)); [ | reflexivity ].
  unfold try_catch.
  destruct (App.renderPage_try o (st w) p n w) as [[[]|e'] w']; reflexivity.
Qed.

Lemma AppUrl_renderPage_returns o n : never_throws (AppUrl.renderPage o n).
Proof.
  intro w. unfold AppUrl.renderPage, outcome, bind, get_state, get_dom.
  destruct (AppUrl.pdfDoc (st w)); [ | reflexivity ].
  destruct (canvasRef (dom w)); [ | reflexivity ].
  destruct (textLayerRef (dom w)); [ | reflexivity ].
  unfold try_catch.
  destruct (AppUrl.renderPage_try o (st w) p n w) as [[[]|e'] w']; reflexivity.
Qed.

(** A render that goes through, and one where the canvas gives no 2D
    context: the latter is logged to the console only. *)
Example render_samples :
  log (exec (App.renderPage oracle_ok 1)
         (mkWorld (App.mkState (Some doc3) 1 3 1.0%float 0) dom1 []))
  = [GetPage doc3 1; GetContext2d; GetViewport 1.0%float 0;
     PageRender (mkPage 1) letter] /\
  log (exec (App.renderPage
               (mkOracle (o_getPage oracle_ok) false (o_getViewport oracle_ok)
                         (o_render oracle_ok) (o_getTextContent oracle_ok)
                         (o_renderTextLayer oracle_ok)) 1)
         (mkWorld (App.mkState (Some doc3) 1 3 1.0%float 0) dom1 []))
  = [GetPage doc3 1; GetContext2d;
     ConsoleError "Failed to get 2D context from canvas."].
Proof. split; reflexivity. Qed.

(** ** The URL loader's busy flag *)

Lemma url_calls_snoc l e :
  AppUrl.url_calls (l ++ [e])
  = (AppUrl.url_calls l + if AppUrl.is_url_call e then 1 else 0)%nat.
Proof.
  unfold AppUrl.url_calls. rewrite filter_app, length_app. cbn.
  destruct (AppUrl.is_url_call e); reflexivity.
Qed.

Lemma quiet_ret {S A} (a : A) : quiet (@ret S A a).
Proof. intro w. reflexivity. Qed.

Lemma quiet_bind {S A B} (m : M S A) (k : A -> M S B) :
  quiet m -> (forall a, quiet (k a)) -> quiet (bind m k).
Proof.
  intros Hm Hk w. specialize (Hm w). unfold exec, bind in *.
  destruct (m w) as [[a|e] w'] eqn:E; cbn in *.
  - rewrite <- Hm. apply (Hk a w').
  - exact Hm.
Qed.

Lemma quiet_try {S A} (m : M S A) (h : Thrown -> M S A) :
  quiet m -> (forall e, quiet (h e)) -> quiet (try_catch m h).
Proof.
  intros Hm Hh w. specialize (Hm w). unfold exec, try_catch in *.
  destruct (m w) as [[a|e] w'] eqn:E; cbn in *.
  - exact Hm.
  - rewrite <- Hm. apply (Hh e w').
Qed.

Lemma quiet_get_state {S} : quiet (@get_state S).
Proof. intro w. reflexivity. Qed.

Lemma quiet_get_dom {S} : quiet (@get_dom S).
Proof. intro w. reflexivity. Qed.

Lemma quiet_update_state {S} (f : S -> S) : quiet (@update_state S f).
Proof. intro w. reflexivity. Qed.

Lemma quiet_update_dom {S} (f : Dom -> Dom) : quiet (@update_dom S f).
Proof. intro w. reflexivity. Qed.

Lemma quiet_emit {S} (e : Effect) :
  AppUrl.is_url_call e = false -> quiet (@emit S e).
Proof.
  intros H w.
  change (AppUrl.url_calls (log w ++ [e]) = AppUrl.url_calls (log w)).
  rewrite url_calls_snoc, H. lia.
Qed.

Lemma quiet_call {S A} (e : Effect) (r : Result A) :
  AppUrl.is_url_call e = false -> quiet (@call S A e r).
Proof.
  intros H w.
  change (AppUrl.url_calls (log w ++ [e]) = AppUrl.url_calls (log w)).
  rewrite url_calls_snoc, H. lia.
Qed.

Create HintDb quiet.
#[export] Hint Resolve quiet_ret quiet_get_state quiet_get_dom
  quiet_update_state quiet_update_dom : quiet.

(** Walks a handler that does not call [getDocument(url)]. *)
Ltac quiet :=
  repeat first
    [ solve [ auto with quiet ]
    | apply quiet_update_state
    | apply quiet_update_dom
    | apply quiet_emit; reflexivity
    | apply quiet_call; reflexivity
    | apply quiet_bind; [ | intro ]
    | apply quiet_try; [ | intro ]
    | match goal with
      | |- quiet (match ?x with _ => _ end) => destruct x
      end ].

Lemma AppUrl_handle_quiet e :
  (forall url, e <> AppUrl.LoadUrl url) -> quiet (AppUrl.handle e).
Proof.
  intro H. destruct e; cbn [AppUrl.handle].
  - unfold AppUrl.handleFileChange. quiet.
  - unfold AppUrl.reader_onload. quiet.
  - unfold AppUrl.reader_onload_fulfilled. quiet.
  - unfold AppUrl.reader_onload_rejected. quiet.
  - unfold AppUrl.reader_onerror. quiet.
  - now destruct (H url).
  - unfold AppUrl.loadPdfFromUrl_fulfilled. quiet.
  - unfold AppUrl.loadPdfFromUrl_rejected. quiet.
  - unfold AppUrl.goToPrevPage. quiet.
  - unfold AppUrl.goToNextPage. quiet.
  - unfold AppUrl.zoomIn. quiet.
  - unfold AppUrl.zoomOut. quiet.
  - unfold AppUrl.rotateClockwise. quiet.
  - unfold AppUrl.rotateCounterClockwise. quiet.
  - unfold AppUrl.render_effect, AppUrl.renderPage, AppUrl.renderPage_try,
      AppUrl.renderPage_catch. quiet.
Qed.

Lemma loadPdfFromUrl_busy url w :
  AppUrl.isLoadingUrl (st w) = true -> exec (AppUrl.loadPdfFromUrl url) w = w.
Proof.
  intro H. open_world w. cbn in H. subst. reflexivity.
Qed.

Lemma loadPdfFromUrl_starts url w :
  AppUrl.isLoadingUrl (st w) = false ->
  exec (AppUrl.loadPdfFromUrl url) w
  = mkWorld (AppUrl.mkState None (AppUrl.pageNum (st w))
               (AppUrl.totalPages (st w)) (AppUrl.scale (st w))
               (AppUrl.rotation (st w)) true None)
            (mkDom (option_map (fun _ => "") (fileInputRef (dom w)))
                   (canvasRef (dom w)) (textLayerRef (dom w)))
            (log w ++ [GetDocumentUrl url]).
Proof.
  intro H. destruct w as [s [fi cv tl] l]. destruct s. cbn in H. subst.
  crush_step. destruct fi; reflexivity.
Qed.

(** While the flag is up, an event that can fire and does not settle the
    load leaves the flag up and calls [getDocument(url)] no more. *)
Lemma AppUrl_busy_step w e :
  AppUrl.isLoadingUrl (st w) = true ->
  AppUrl.can_fire (st w) e = true ->
  AppUrl.settles_url e = false ->
  AppUrl.isLoadingUrl (st (AppUrl.step w e)) = true /\
  AppUrl.url_calls (log (AppUrl.step w e)) = AppUrl.url_calls (log w).
Proof.
  intros Hb Hf Hs. split.
  - rewrite AppUrl_step_state.
    destruct (st w) as [d p t sc r fl ue]; cbn in *. subst fl.
    destruct e; cbn in *; try reflexivity; try discriminate.
    + destruct (1 <? p); reflexivity.
    + destruct (p <? t); reflexivity.
  - destruct e; try solve [ apply AppUrl_handle_quiet; intros u [=] ].
    unfold AppUrl.step. cbn [AppUrl.handle].
    now rewrite loadPdfFromUrl_busy.
Qed.

Lemma AppUrl_busy_run es : forall w,
  AppUrl.isLoadingUrl (st w) = true ->
  AppUrl.fires es w = true ->
  forallb (fun e => negb (AppUrl.settles_url e)) es = true ->
  AppUrl.isLoadingUrl (st (AppUrl.run es w)) = true /\
  AppUrl.url_calls (log (AppUrl.run es w)) = AppUrl.url_calls (log w).
Proof.
  induction es as [|e es IH]; intros w Hb Hf Hs.
  - split; [ exact Hb | reflexivity ].
  - cbn [AppUrl.fires] in Hf. cbn [forallb] in Hs.
    change (AppUrl.run (e :: es) w) with (AppUrl.run es (AppUrl.step w e)).
    apply andb_prop in Hf as [Hf1 Hf2]. apply andb_prop in Hs as [Hs1 Hs2].
    apply negb_true_iff in Hs1.
    destruct (AppUrl_busy_step w e Hb Hf1 Hs1) as [Hb' Hc'].
    destruct (IH (AppUrl.step w e) Hb' Hf2 Hs2) as [Hb'' Hc''].
    split; [ exact Hb'' | rewrite Hc''; exact Hc' ].
Qed.

(** C7. [loadPdfFromUrl] called while the loading flag is up does
    nothing: no cell, no DOM node and no log entry changes, so no second
    [getDocument] call is made.  Called with the flag down it raises the
    flag and calls [getDocument(url)] once; from then on, over every
    sequence of events that does not settle the load (further calls of
    [loadPdfFromUrl] included; the file input is disabled while the flag
    is up), the flag stays up and [getDocument(url)] has been called
    exactly once more than before; when the load settles, fulfilled or
    rejected, the flag is down. *)
Theorem url_load_guard (url : string) :
  (forall w, AppUrl.isLoadingUrl (st w) = true ->
     exec (AppUrl.loadPdfFromUrl url) w = w) /\
  (forall w, AppUrl.isLoadingUrl (st w) = false ->
     AppUrl.isLoadingUrl (st (exec (AppUrl.loadPdfFromUrl url) w)) = true /\
     log (exec (AppUrl.loadPdfFromUrl url) w) = (log w ++ [GetDocumentUrl url])%list) /\
  (forall w es,
     AppUrl.isLoadingUrl (st w) = false ->
     AppUrl.fires es (exec (AppUrl.loadPdfFromUrl url) w) = true ->
     forallb (fun e => negb (AppUrl.settles_url e)) es = true ->
     AppUrl.isLoadingUrl
       (st (AppUrl.run es (exec (AppUrl.loadPdfFromUrl url) w))) = true /\
     AppUrl.url_calls
       (log (AppUrl.run es (exec (AppUrl.loadPdfFromUrl url) w)))
     = S (AppUrl.url_calls (log w))) /\
  (forall w pdf,
     AppUrl.isLoadingUrl (st (exec (AppUrl.loadPdfFromUrl_fulfilled pdf) w))
     = false) /\
  (forall w err,
     AppUrl.isLoadingUrl (st (exec (AppUrl.loadPdfFromUrl_rejected url err) w))
     = false).
Proof.
  split; [ | split; [ | split; [ | split ] ] ].
  - intros w. apply loadPdfFromUrl_busy.
  - intros w H. rewrite (loadPdfFromUrl_starts url w H). split; reflexivity.
  - intros w es H Hf Hs.
    pose proof (loadPdfFromUrl_starts url w H) as E.
    destruct (AppUrl_busy_run es (exec (AppUrl.loadPdfFromUrl url) w))
      as [Hb Hc]; auto.
    + rewrite E. reflexivity.
    + split; [ exact Hb | ]. rewrite Hc, E. cbn [log].
      rewrite url_calls_snoc. cbn. lia.
  - intros w pdf. open_world w. crush_step. reflexivity.
  - intros w err. open_world w. crush_step. reflexivity.
Qed.

Lemma url_load_guard_witness :
  AppUrl.isLoadingUrl
    (st (AppUrl.run busy_trace
           (exec (AppUrl.loadPdfFromUrl "/test.pdf")
                 (mkWorld AppUrl.initial dom0 [])))) = true /\
  AppUrl.url_calls
    (log (AppUrl.run busy_trace
            (exec (AppUrl.loadPdfFromUrl "/test.pdf")
                  (mkWorld AppUrl.initial dom0 [])))) = 1%nat /\
  exec (AppUrl.loadPdfFromUrl "/test.pdf")
       (exec (AppUrl.loadPdfFromUrl "/test.pdf") (mkWorld AppUrl.initial dom0 []))
  = exec (AppUrl.loadPdfFromUrl "/test.pdf") (mkWorld AppUrl.initial dom0 []).
Proof.
  destruct (url_load_guard "/test.pdf") as (G & _ & B & _).
  destruct (B (mkWorld AppUrl.initial dom0 []) busy_trace) as [Hb Hc];
    try reflexivity.
  split; [ exact Hb | split; [ exact Hc | ] ].
  apply G. reflexivity.
Defined.

(** What the [disabled] attribute of the file input keeps from happening:
    [handleFileChange] with a PDF file lowers the flag, whatever it was. *)
Remark handleFileChange_lowers_flag (f : File) w :
  file_type f = "application/pdf" ->
  AppUrl.isLoadingUrl (st (exec (AppUrl.handleFileChange (Some f)) w)) = false.
Proof.
  intro H. open_world w. crush_step. rewrite H. reflexivity.
Qed.

(** ** The life of the document handle *)

Lemma App_handle_origin es : forall d l doc,
  App.pdfDoc (st (App.run es (mkWorld App.initial d l))) = Some doc ->
  exists e, In e es /\ App.delivered e = Some doc.
Proof.
  induction es as [|e es IH] using rev_ind; intros d l doc H.
  - discriminate.
  - rewrite App_run_app in H. cbn [App.run fold_left] in H.
    rewrite App_step_state in H.
    assert (K : App.pdfDoc (st (App.run es (mkWorld App.initial d l))) = Some doc
                \/ App.delivered e = Some doc).
    { destruct (st (App.run es (mkWorld App.initial d l))) as [pd p t sc r].
      destruct e; cbn in *; auto; try discriminate.
      - destruct (1 <? p); auto.
      - destruct (p <? t); auto. }
    destruct K as [K|K].
    + destruct (IH d l doc K) as (e' & Hin & He').
      exists e'. split; [ apply in_or_app; now left | exact He' ].
    + exists e. split; [ apply in_or_app; right; now left | exact K ].
Qed.

Lemma AppUrl_handle_origin es : forall d l doc,
  AppUrl.pdfDoc (st (AppUrl.run es (mkWorld AppUrl.initial d l))) = Some doc ->
  exists e, In e es /\ AppUrl.delivered e = Some doc.
Proof.
  induction es as [|e es IH] using rev_ind; intros d l doc H.
  - discriminate.
  - rewrite AppUrl_run_app in H. cbn [AppUrl.run fold_left] in H.
    rewrite AppUrl_step_state in H.
    assert (K : AppUrl.pdfDoc (st (AppUrl.run es (mkWorld AppUrl.initial d l)))
                = Some doc
                \/ AppUrl.delivered e = Some doc).
    { destruct (st (AppUrl.run es (mkWorld AppUrl.initial d l)))
        as [pd p t sc r fl ue].
      destruct e; cbn in *; auto; try discriminate.
      - destruct (is_pdf_selection sel); auto.
      - destruct fl; cbn in H; auto; discriminate.
      - destruct (1 <? p); auto.
      - destruct (p <? t); auto. }
    destruct K as [K|K].
    + destruct (IH d l doc K) as (e' & Hin & He').
      exists e'. split; [ apply in_or_app; now left | exact He' ].
    + exists e. split; [ apply in_or_app; right; now left | exact K ].
Qed.

(** C8, as stated, fails: starting a file load keeps the document and
    its page count, in both components; starting a URL load drops the
    document but keeps [totalPages]; and a failed read of the file keeps
    both. *)
Lemma handle_kept_at_load_start :
  ~ App_discarded (st (exec (App.handleFileChange (Some pdf_file)) App_showing)) /\
  ~ AppUrl_discarded
      (st (exec (AppUrl.handleFileChange (Some pdf_file)) AppUrl_showing)) /\
  ~ AppUrl_discarded
      (st (exec (AppUrl.loadPdfFromUrl "/test.pdf") AppUrl_showing)) /\
  ~ App_discarded (st (exec App.reader_onerror App_showing)) /\
  ~ AppUrl_discarded (st (exec AppUrl.reader_onerror AppUrl_showing)).
Proof.
  repeat split; intros [H1 H2]; cbn in *; discriminate.
Qed.

(** C8, amended. In both components: a fulfilled load puts the delivered
    document in [pdfDoc] in place of whatever was there, and the handle in
    [pdfDoc] is at all times one the library delivered, as delivered; a
    rejected [getDocument] promise, in the file loader and in the URL
    loader, sets [pdfDoc] to null and [totalPages] to 0; the URL loader,
    when it starts a load, sets [pdfDoc] to null and leaves [totalPages];
    the file loader, when a file is selected, when the reader delivers and
    when the reader fails, leaves [pdfDoc] and [totalPages] as they are. *)
Theorem document_handle_lifecycle :
  (forall pdf,
     (forall w, App.pdfDoc (st (exec (App.reader_onload_fulfilled pdf) w))
                = Some pdf) /\
     (forall w, AppUrl.pdfDoc (st (exec (AppUrl.reader_onload_fulfilled pdf) w))
                = Some pdf) /\
     (forall w, AppUrl.pdfDoc (st (exec (AppUrl.loadPdfFromUrl_fulfilled pdf) w))
                = Some pdf)) /\
  (forall es d l doc,
     App.pdfDoc (st (App.run es (mkWorld App.initial d l))) = Some doc ->
     exists e, In e es /\ App.delivered e = Some doc) /\
  (forall es d l doc,
     AppUrl.pdfDoc (st (AppUrl.run es (mkWorld AppUrl.initial d l))) = Some doc ->
     exists e, In e es /\ AppUrl.delivered e = Some doc) /\
  (forall err,
     (forall w, App_discarded (st (exec (App.reader_onload_rejected err) w))) /\
     (forall w, AppUrl_discarded
                  (st (exec (AppUrl.reader_onload_rejected err) w))) /\
     (forall w url, AppUrl_discarded
                      (st (exec (AppUrl.loadPdfFromUrl_rejected url err) w)))) /\
  (forall w url,
     AppUrl.isLoadingUrl (st w) = false ->
     AppUrl.pdfDoc (st (exec (AppUrl.loadPdfFromUrl url) w)) = None /\
     AppUrl.totalPages (st (exec (AppUrl.loadPdfFromUrl url) w))
     = AppUrl.totalPages (st w)) /\
  (forall w e,
     match e with
     | App.FileChange _ | App.ReaderLoad _ | App.ReaderError => True
     | _ => False
     end ->
     App.pdfDoc (st (App.step w e)) = App.pdfDoc (st w) /\
     App.totalPages (st (App.step w e)) = App.totalPages (st w)) /\
  (forall w e,
     match e with
     | AppUrl.FileChange _ | AppUrl.ReaderLoad _ | AppUrl.ReaderError => True
     | _ => False
     end ->
     AppUrl.pdfDoc (st (AppUrl.step w e)) = AppUrl.pdfDoc (st w) /\
     AppUrl.totalPages (st (AppUrl.step w e)) = AppUrl.totalPages (st w)).
Proof.
  split; [ | split; [ | split; [ | split; [ | split; [ | split ] ] ] ] ].
  - intro pdf. split; [ | split ]; intro w; open_world w; crush_step;
      reflexivity.
  - intros es d l doc. apply App_handle_origin.
  - intros es d l doc. apply AppUrl_handle_origin.
  - intro err. split; [ | split ]; intro w; intros; open_world w; crush_step;
      split; reflexivity.
  - intros w url H. rewrite (loadPdfFromUrl_starts url w H). split; reflexivity.
  - intros w e He. rewrite App_step_state.
    destruct e; cbn in *; try contradiction; split; reflexivity.
  - intros w e He. rewrite AppUrl_step_state.
    destruct e; cbn in *; try contradiction;
      try destruct (is_pdf_selection sel); split; reflexivity.
Qed.

Lemma document_handle_lifecycle_witness :
  (AppUrl.pdfDoc (st (exec (AppUrl.loadPdfFromUrl "/test.pdf") AppUrl_showing))
   = None /\
   AppUrl.totalPages
     (st (exec (AppUrl.loadPdfFromUrl "/test.pdf") AppUrl_showing)) = 3) /\
  (App.pdfDoc (st (App.step App_showing (App.FileChange (Some pdf_file))))
   = Some doc3 /\
   App.totalPages (st (App.step App_showing (App.FileChange (Some pdf_file))))
   = 3) /\
  (exists e, In e three_pages_trace /\ App.delivered e = Some doc3).
Proof.
  destruct document_handle_lifecycle as (_ & O & _ & _ & U & F & _).
  split; [ | split ].
  - apply (U AppUrl_showing "/test.pdf"). reflexivity.
  - apply (F App_showing (App.FileChange (Some pdf_file))). exact I.
  - apply (O three_pages_trace dom0 [] doc3). reflexivity.
Defined.

(** ** Page buttons: what a click does, and when it can be made *)

Lemma App_prev_world w :
  exec App.goToPrevPage w =
  if 1 <? App.pageNum (st w)
  then mkWorld (App.mkState (App.pdfDoc (st w)) (App.pageNum (st w) - 1)
                  (App.totalPages (st w)) (App.scale (st w))
                  (App.rotation (st w))) (dom w) (log w)
  else w.
Proof. open_world w. crush_step. destruct (1 <? pageNum); reflexivity. Qed.

Lemma App_next_world w :
  exec App.goToNextPage w =
  if App.pageNum (st w) <? App.totalPages (st w)
  then mkWorld (App.mkState (App.pdfDoc (st w)) (App.pageNum (st w) + 1)
                  (App.totalPages (st w)) (App.scale (st w))
                  (App.rotation (st w))) (dom w) (log w)
  else w.
Proof. open_world w. crush_step. destruct (pageNum <? totalPages); reflexivity. Qed.

Lemma AppUrl_prev_world w :
  exec AppUrl.goToPrevPage w =
  if 1 <? AppUrl.pageNum (st w)
  then mkWorld (AppUrl.mkState (AppUrl.pdfDoc (st w)) (AppUrl.pageNum (st w) - 1)
                  (AppUrl.totalPages (st w)) (AppUrl.scale (st w))
                  (AppUrl.rotation (st w)) (AppUrl.isLoadingUrl (st w))
                  (AppUrl.urlError (st w))) (dom w) (log w)
  else w.
Proof. open_world w. crush_step. destruct (1 <? pageNum); reflexivity. Qed.

Lemma AppUrl_next_world w :
  exec AppUrl.goToNextPage w =
  if AppUrl.pageNum (st w) <? AppUrl.totalPages (st w)
  then mkWorld (AppUrl.mkState (AppUrl.pdfDoc (st w)) (AppUrl.pageNum (st w) + 1)
                  (AppUrl.totalPages (st w)) (AppUrl.scale (st w))
                  (AppUrl.rotation (st w)) (AppUrl.isLoadingUrl (st w))
                  (AppUrl.urlError (st w))) (dom w) (log w)
  else w.
Proof. open_world w. crush_step. destruct (pageNum <? totalPages); reflexivity. Qed.

(** X1. In both components the Previous button is disabled exactly when
    [goToPrevPage] would change nothing, and the Next button exactly when
    [goToNextPage] would change nothing: the [disabled] attributes of the
    JSX and the guards of the handlers agree on every state. *)
Theorem page_buttons_disabled_iff_no_op
  (wa : World App.State) (wu : World AppUrl.State) :
  (AppJsx.prev_disabled (st wa) = true <-> exec App.goToPrevPage wa = wa) /\
  (AppJsx.next_disabled (st wa) = true <-> exec App.goToNextPage wa = wa) /\
  (AppUrlJsx.prev_disabled (st wu) = true <-> exec AppUrl.goToPrevPage wu = wu) /\
  (AppUrlJsx.next_disabled (st wu) = true <-> exec AppUrl.goToNextPage wu = wu).
Proof.
  rewrite App_prev_world, App_next_world, AppUrl_prev_world, AppUrl_next_world.
  unfold AppJsx.prev_disabled, AppJsx.next_disabled,
    AppUrlJsx.prev_disabled, AppUrlJsx.next_disabled.
  destruct wa as [[da pa ta sa ra] doma la].
  destruct wu as [[du pu tu su ru fu eu] domu lu].
  cbn [st dom log App.pdfDoc App.pageNum App.totalPages App.scale App.rotation
       AppUrl.pdfDoc AppUrl.pageNum AppUrl.totalPages AppUrl.scale
       AppUrl.rotation AppUrl.isLoadingUrl AppUrl.urlError].
  split; [ | split; [ | split ] ].
  - destruct (1 <? pa) eqn:E; rewrite Z.leb_le;
      [ apply Z.ltb_lt in E | apply Z.ltb_ge in E ];
      split; intro H; try lia; try reflexivity.
    injection H as H. lia.
  - destruct (pa <? ta) eqn:E; rewrite Z.leb_le;
      [ apply Z.ltb_lt in E | apply Z.ltb_ge in E ];
      split; intro H; try lia; try reflexivity.
    injection H as H. lia.
  - destruct (1 <? pu) eqn:E; rewrite Z.leb_le;
      [ apply Z.ltb_lt in E | apply Z.ltb_ge in E ];
      split; intro H; try lia; try reflexivity.
    injection H as H. lia.
  - destruct (pu <? tu) eqn:E; rewrite Z.leb_le;
      [ apply Z.ltb_lt in E | apply Z.ltb_ge in E ];
      split; intro H; try lia; try reflexivity.
    injection H as H. lia.
Qed.

(** X2. In both components, on a page that has a next page (and is at
    least 1), Next followed by Previous gives back the world as it was;
    on a page that has a previous page (and is at most [totalPages]),
    Previous followed by Next does. *)
Theorem page_round_trip (wa : World App.State) (wu : World AppUrl.State) :
  (1 <= App.pageNum (st wa) < App.totalPages (st wa) ->
   exec App.goToPrevPage (exec App.goToNextPage wa) = wa) /\
  (1 < App.pageNum (st wa) <= App.totalPages (st wa) ->
   exec App.goToNextPage (exec App.goToPrevPage wa) = wa) /\
  (1 <= AppUrl.pageNum (st wu) < AppUrl.totalPages (st wu) ->
   exec AppUrl.goToPrevPage (exec AppUrl.goToNextPage wu) = wu) /\
  (1 < AppUrl.pageNum (st wu) <= AppUrl.totalPages (st wu) ->
   exec AppUrl.goToNextPage (exec AppUrl.goToPrevPage wu) = wu).
Proof.
  destruct wa as [[da pa ta sa ra] doma la].
  destruct wu as [[du pu tu su ru fu eu] domu lu].
  cbn [st App.pageNum App.totalPages AppUrl.pageNum AppUrl.totalPages].
  split; [ | split; [ | split ] ]; intro H.
  - rewrite App_next_world; cbn [st dom log App.pdfDoc App.pageNum
      App.totalPages App.scale App.rotation].
    replace (pa <? ta) with true by (symmetry; apply Z.ltb_lt; lia).
    rewrite App_prev_world; cbn [st dom log App.pdfDoc App.pageNum
      App.totalPages App.scale App.rotation].
    replace (1 <? pa + 1) with true by (symmetry; apply Z.ltb_lt; lia).
    do 2 f_equal. lia.
  - rewrite App_prev_world; cbn [st dom log App.pdfDoc App.pageNum
      App.totalPages App.scale App.rotation].
    replace (1 <? pa) with true by (symmetry; apply Z.ltb_lt; lia).
    rewrite App_next_world; cbn [st dom log App.pdfDoc App.pageNum
      App.totalPages App.scale App.rotation].
    replace (pa - 1 <? ta) with true by (symmetry; apply Z.ltb_lt; lia).
    do 2 f_equal. lia.
  - rewrite AppUrl_next_world; cbn [st dom log AppUrl.pdfDoc AppUrl.pageNum
      AppUrl.totalPages AppUrl.scale AppUrl.rotation AppUrl.isLoadingUrl
      AppUrl.urlError].
    replace (pu <? tu) with true by (symmetry; apply Z.ltb_lt; lia).
    rewrite AppUrl_prev_world; cbn [st dom log AppUrl.pdfDoc AppUrl.pageNum
      AppUrl.totalPages AppUrl.scale AppUrl.rotation AppUrl.isLoadingUrl
      AppUrl.urlError].
    replace (1 <? pu + 1) with true by (symmetry; apply Z.ltb_lt; lia).
    do 2 f_equal. lia.
  - rewrite AppUrl_prev_world; cbn [st dom log AppUrl.pdfDoc AppUrl.pageNum
      AppUrl.totalPages AppUrl.scale AppUrl.rotation AppUrl.isLoadingUrl
      AppUrl.urlError].
    replace (1 <? pu) with true by (symmetry; apply Z.ltb_lt; lia).
    rewrite AppUrl_next_world; cbn [st dom log AppUrl.pdfDoc AppUrl.pageNum
      AppUrl.totalPages AppUrl.scale AppUrl.rotation AppUrl.isLoadingUrl
      AppUrl.urlError].
    replace (pu - 1 <? tu) with true by (symmetry; apply Z.ltb_lt; lia).
    do 2 f_equal. lia.
Qed.

Lemma page_round_trip_witness :
  exec App.goToPrevPage (exec App.goToNextPage App_showing) = App_showing /\
  exec AppUrl.goToNextPage (exec AppUrl.goToPrevPage AppUrl_showing)
  = AppUrl_showing.
Proof.
  destruct (page_round_trip App_showing AppUrl_showing) as (A & _ & _ & B).
  split; [ apply A | apply B ]; cbn; lia.
Defined.

Lemma App_next_clicks k : forall w,
  App.pageNum (st w) <= App.totalPages (st w) ->
  App.run (repeat App.NextPage k) w =
  mkWorld (App.mkState (App.pdfDoc (st w))
             (Z.min (App.pageNum (st w) + Z.of_nat k) (App.totalPages (st w)))
             (App.totalPages (st w)) (App.scale (st w)) (App.rotation (st w)))
          (dom w) (log w).
Proof.
  induction k as [|k IH]; intros w H.
  - destruct w as [[pd p t sc r] d l]; cbn in *. do 2 f_equal. lia.
  - cbn [repeat App.run fold_left].
    change (App.step w App.NextPage) with (exec App.goToNextPage w).
    fold (App.run (repeat App.NextPage k) (exec App.goToNextPage w)).
    rewrite App_next_world.
    destruct w as [[pd p t sc r] d l]; cbn [st dom log App.pdfDoc App.pageNum
      App.totalPages App.scale App.rotation] in *.
    destruct (p <? t) eqn:E;
      [ apply Z.ltb_lt in E | apply Z.ltb_ge in E ];
      rewrite IH by (cbn; lia); cbn; do 2 f_equal; lia.
Qed.

Lemma App_prev_clicks k : forall w,
  1 <= App.pageNum (st w) ->
  App.run (repeat App.PrevPage k) w =
  mkWorld (App.mkState (App.pdfDoc (st w))
             (Z.max (App.pageNum (st w) - Z.of_nat k) 1)
             (App.totalPages (st w)) (App.scale (st w)) (App.rotation (st w)))
          (dom w) (log w).
Proof.
  induction k as [|k IH]; intros w H.
  - destruct w as [[pd p t sc r] d l]; cbn in *. do 2 f_equal. lia.
  - cbn [repeat App.run fold_left].
    change (App.step w App.PrevPage) with (exec App.goToPrevPage w).
    fold (App.run (repeat App.PrevPage k) (exec App.goToPrevPage w)).
    rewrite App_prev_world.
    destruct w as [[pd p t sc r] d l]; cbn [st dom log App.pdfDoc App.pageNum
      App.totalPages App.scale App.rotation] in *.
    destruct (1 <? p) eqn:E;
      [ apply Z.ltb_lt in E | apply Z.ltb_ge in E ];
      rewrite IH by (cbn; lia); cbn; do 2 f_equal; lia.
Qed.

Lemma AppUrl_next_clicks k : forall w,
  AppUrl.pageNum (st w) <= AppUrl.totalPages (st w) ->
  AppUrl.run (repeat AppUrl.NextPage k) w =
  mkWorld (AppUrl.mkState (AppUrl.pdfDoc (st w))
             (Z.min (AppUrl.pageNum (st w) + Z.of_nat k)
                    (AppUrl.totalPages (st w)))
             (AppUrl.totalPages (st w)) (AppUrl.scale (st w))
             (AppUrl.rotation (st w)) (AppUrl.isLoadingUrl (st w))
             (AppUrl.urlError (st w)))
          (dom w) (log w).
Proof.
  induction k as [|k IH]; intros w H.
  - destruct w as [[pd p t sc r fl ue] d l]; cbn in *. do 2 f_equal. lia.
  - cbn [repeat AppUrl.run fold_left].
    change (AppUrl.step w AppUrl.NextPage) with (exec AppUrl.goToNextPage w).
    fold (AppUrl.run (repeat AppUrl.NextPage k) (exec AppUrl.goToNextPage w)).
    rewrite AppUrl_next_world.
    destruct w as [[pd p t sc r fl ue] d l]; cbn [st dom log AppUrl.pdfDoc
      AppUrl.pageNum AppUrl.totalPages AppUrl.scale AppUrl.rotation
      AppUrl.isLoadingUrl AppUrl.urlError] in *.
    destruct (p <? t) eqn:E;
      [ apply Z.ltb_lt in E | apply Z.ltb_ge in E ];
      rewrite IH by (cbn; lia); cbn; do 2 f_equal; lia.
Qed.

Lemma AppUrl_prev_clicks k : forall w,
  1 <= AppUrl.pageNum (st w) ->
  AppUrl.run (repeat AppUrl.PrevPage k) w =
  mkWorld (AppUrl.mkState (AppUrl.pdfDoc (st w))
             (Z.max (AppUrl.pageNum (st w) - Z.of_nat k) 1)
             (AppUrl.totalPages (st w)) (AppUrl.scale (st w))
             (AppUrl.rotation (st w)) (AppUrl.isLoadingUrl (st w))
             (AppUrl.urlError (st w)))
          (dom w) (log w).
Proof.
  induction k as [|k IH]; intros w H.
  - destruct w as [[pd p t sc r fl ue] d l]; cbn in *. do 2 f_equal. lia.
  - cbn [repeat AppUrl.run fold_left].
    change (AppUrl.step w AppUrl.PrevPage) with (exec AppUrl.goToPrevPage w).
    fold (AppUrl.run (repeat AppUrl.PrevPage k) (exec AppUrl.goToPrevPage w)).
    rewrite AppUrl_prev_world.
    destruct w as [[pd p t sc r fl ue] d l]; cbn [st dom log AppUrl.pdfDoc
      AppUrl.pageNum AppUrl.totalPages AppUrl.scale AppUrl.rotation
      AppUrl.isLoadingUrl AppUrl.urlError] in *.
    destruct (1 <? p) eqn:E;
      [ apply Z.ltb_lt in E | apply Z.ltb_ge in E ];
      rewrite IH by (cbn; lia); cbn; do 2 f_equal; lia.
Qed.

(** X3. In both components, [k] clicks on Next from a page that is at
    most [totalPages] lead to page min(pageNum + k, totalPages), and [k]
    clicks on Previous from a page that is at least 1 lead to page
    max(pageNum - k, 1); nothing else changes.  So every page of the
    document can be reached from every other, and no click sequence
    leaves the document. *)
Theorem page_after_clicks (k : nat) :
  (forall w, App.pageNum (st w) <= App.totalPages (st w) ->
     App.run (repeat App.NextPage k) w =
     mkWorld (App.mkState (App.pdfDoc (st w))
                (Z.min (App.pageNum (st w) + Z.of_nat k) (App.totalPages (st w)))
                (App.totalPages (st w)) (App.scale (st w)) (App.rotation (st w)))
             (dom w) (log w)) /\
  (forall w, 1 <= App.pageNum (st w) ->
     App.run (repeat App.PrevPage k) w =
     mkWorld (App.mkState (App.pdfDoc (st w))
                (Z.max (App.pageNum (st w) - Z.of_nat k) 1)
                (App.totalPages (st w)) (App.scale (st w)) (App.rotation (st w)))
             (dom w) (log w)) /\
  (forall w, AppUrl.pageNum (st w) <= AppUrl.totalPages (st w) ->
     AppUrl.run (repeat AppUrl.NextPage k) w =
     mkWorld (AppUrl.mkState (AppUrl.pdfDoc (st w))
                (Z.min (AppUrl.pageNum (st w) + Z.of_nat k)
                       (AppUrl.totalPages (st w)))
                (AppUrl.totalPages (st w)) (AppUrl.scale (st w))
                (AppUrl.rotation (st w)) (AppUrl.isLoadingUrl (st w))
                (AppUrl.urlError (st w)))
             (dom w) (log w)) /\
  (forall w, 1 <= AppUrl.pageNum (st w) ->
     AppUrl.run (repeat AppUrl.PrevPage k) w =
     mkWorld (AppUrl.mkState (AppUrl.pdfDoc (st w))
                (Z.max (AppUrl.pageNum (st w) - Z.of_nat k) 1)
                (AppUrl.totalPages (st w)) (AppUrl.scale (st w))
                (AppUrl.rotation (st w)) (AppUrl.isLoadingUrl (st w))
                (AppUrl.urlError (st w)))
             (dom w) (log w)).
Proof.
  split; [ | split; [ | split ] ].
  - apply App_next_clicks.
  - apply App_prev_clicks.
  - apply AppUrl_next_clicks.
  - apply AppUrl_prev_clicks.
Qed.

Lemma page_after_clicks_witness :
  App.run (repeat App.NextPage 5) App_showing =
    mkWorld (App.mkState (Some doc3) 3 3 1.4%float 90) dom1 [] /\
  AppUrl.run (repeat AppUrl.PrevPage 5) AppUrl_showing =
    mkWorld (AppUrl.mkState (Some doc3) 1 3 1.4%float 90 false None) dom1 [].
Proof.
  destruct (page_after_clicks 5) as (N & _ & _ & P).
  split.
  - apply (N App_showing). cbn. lia.
  - apply (P AppUrl_showing). cbn. lia.
Defined.

(** ** Zoom buttons and the zoom label *)

Lemma scale_orbit_zoom_in_moves :
  Forall (fun s => if PrimFloat.leb 3 s then zoom_in s = s
                   else PrimFloat.ltb s (zoom_in s) = true)
         scale_orbit.
Proof. each_of_orbit ltac:(vm_compute; reflexivity). Qed.

Lemma scale_orbit_zoom_out_moves :
  Forall (fun s => if PrimFloat.leb s 0.25 then zoom_out s = s
                   else PrimFloat.ltb (zoom_out s) s = true)
         scale_orbit.
Proof. each_of_orbit ltac:(vm_compute; reflexivity). Qed.

Lemma App_zoomIn_world w :
  exec App.zoomIn w =
  mkWorld (App.mkState (App.pdfDoc (st w)) (App.pageNum (st w))
             (App.totalPages (st w)) (zoom_in (App.scale (st w)))
             (App.rotation (st w))) (dom w) (log w).
Proof. open_world w. reflexivity. Qed.

Lemma App_zoomOut_world w :
  exec App.zoomOut w =
  mkWorld (App.mkState (App.pdfDoc (st w)) (App.pageNum (st w))
             (App.totalPages (st w)) (zoom_out (App.scale (st w)))
             (App.rotation (st w))) (dom w) (log w).
Proof. open_world w. reflexivity. Qed.

Lemma AppUrl_zoomIn_world w :
  exec AppUrl.zoomIn w =
  mkWorld (AppUrl.mkState (AppUrl.pdfDoc (st w)) (AppUrl.pageNum (st w))
             (AppUrl.totalPages (st w)) (zoom_in (AppUrl.scale (st w)))
             (AppUrl.rotation (st w)) (AppUrl.isLoadingUrl (st w))
             (AppUrl.urlError (st w))) (dom w) (log w).
Proof. open_world w. reflexivity. Qed.

Lemma AppUrl_zoomOut_world w :
  exec AppUrl.zoomOut w =
  mkWorld (AppUrl.mkState (AppUrl.pdfDoc (st w)) (AppUrl.pageNum (st w))
             (AppUrl.totalPages (st w)) (zoom_out (AppUrl.scale (st w)))
             (AppUrl.rotation (st w)) (AppUrl.isLoadingUrl (st w))
             (AppUrl.urlError (st w))) (dom w) (log w).
Proof. open_world w. reflexivity. Qed.

(** X4. In both components, along every sequence of events from the
    [useState] values: when the Zoom In button is disabled (scale >= 3)
    [zoomIn] changes nothing, and when it is enabled [zoomIn] makes the
    scale strictly larger; when the Zoom Out button is disabled
    (scale <= 0.25) [zoomOut] changes nothing, and when it is enabled
    [zoomOut] makes the scale strictly smaller. *)
Theorem zoom_buttons_disabled_iff_no_op (d : Dom) (l : list Effect) :
  (forall es,
     let w := App.run es (mkWorld App.initial d l) in
     (if AppJsx.zoomIn_disabled (st w) then exec App.zoomIn w = w
      else PrimFloat.ltb (App.scale (st w))
                         (App.scale (st (exec App.zoomIn w))) = true) /\
     (if AppJsx.zoomOut_disabled (st w) then exec App.zoomOut w = w
      else PrimFloat.ltb (App.scale (st (exec App.zoomOut w)))
                         (App.scale (st w)) = true)) /\
  (forall es,
     let w := AppUrl.run es (mkWorld AppUrl.initial d l) in
     (if AppUrlJsx.zoomIn_disabled (st w) then exec AppUrl.zoomIn w = w
      else PrimFloat.ltb (AppUrl.scale (st w))
                         (AppUrl.scale (st (exec AppUrl.zoomIn w))) = true) /\
     (if AppUrlJsx.zoomOut_disabled (st w) then exec AppUrl.zoomOut w = w
      else PrimFloat.ltb (AppUrl.scale (st (exec AppUrl.zoomOut w)))
                         (AppUrl.scale (st w)) = true)).
Proof.
  split; intros es w.
  - pose proof (App_scale_orbit d l es) as H. fold w in H.
    pose proof (in_orbit _ _ scale_orbit_zoom_in_moves H) as Hi.
    pose proof (in_orbit _ _ scale_orbit_zoom_out_moves H) as Ho.
    cbv beta in Hi, Ho.
    rewrite App_zoomIn_world, App_zoomOut_world.
    unfold AppJsx.zoomIn_disabled, AppJsx.zoomOut_disabled.
    destruct w as [[pd p t sc r] dm lg];
      cbn [st dom log App.pdfDoc App.pageNum App.totalPages App.scale
           App.rotation] in *.
    split.
    + destruct (PrimFloat.leb 3 sc); [ rewrite Hi; reflexivity | exact Hi ].
    + destruct (PrimFloat.leb sc 0.25); [ rewrite Ho; reflexivity | exact Ho ].
  - pose proof (AppUrl_scale_orbit d l es) as H. fold w in H.
    pose proof (in_orbit _ _ scale_orbit_zoom_in_moves H) as Hi.
    pose proof (in_orbit _ _ scale_orbit_zoom_out_moves H) as Ho.
    cbv beta in Hi, Ho.
    rewrite AppUrl_zoomIn_world, AppUrl_zoomOut_world.
    unfold AppUrlJsx.zoomIn_disabled, AppUrlJsx.zoomOut_disabled.
    destruct w as [[pd p t sc r fl ue] dm lg];
      cbn [st dom log AppUrl.pdfDoc AppUrl.pageNum AppUrl.totalPages
           AppUrl.scale AppUrl.rotation AppUrl.isLoadingUrl AppUrl.urlError]
        in *.
    split.
    + destruct (PrimFloat.leb 3 sc); [ rewrite Hi; reflexivity | exact Hi ].
    + destruct (PrimFloat.leb sc 0.25); [ rewrite Ho; reflexivity | exact Ho ].
Qed.

Lemma scale_orbit_labels :
  Forall (fun s => exists n,
            Math_round (s * 100)%float = Some n /\
            25 <= n <= 300 /\ n mod 5 = 0 /\
            Math_round (zoom_in s * 100)%float
            = Some (if PrimFloat.leb (s + 0.2) 3 then n + 20 else 300) /\
            Math_round (zoom_out s * 100)%float
            = Some (if PrimFloat.leb 0.25 (s - 0.2) then n - 20 else 25))
         scale_orbit.
Proof.
  each_of_orbit
    ltac:(eexists; split; [ vm_compute; reflexivity | ];
          split; [ lia | ]; split; [ reflexivity | ];
          split; vm_compute; reflexivity).
Qed.

(** X5. In both components, along every sequence of events from the
    [useState] values, the zoom label [Math.round(scale * 100)] is a whole
    multiple of 5 between 25 and 300; after [zoomIn] it is 20 more, or 300
    when the scale was clamped; after [zoomOut] it is 20 less, or 25 when
    the scale was clamped.  The rounding of the scale never shows. *)
Theorem zoom_label_steps (d : Dom) (l : list Effect) :
  (forall es,
     let w := App.run es (mkWorld App.initial d l) in
     let s := App.scale (st w) in
     exists n,
       AppJsx.zoom_label (st w) = Some n /\
       25 <= n <= 300 /\ n mod 5 = 0 /\
       AppJsx.zoom_label (st (exec App.zoomIn w))
       = Some (if PrimFloat.leb (s + 0.2) 3 then n + 20 else 300) /\
       AppJsx.zoom_label (st (exec App.zoomOut w))
       = Some (if PrimFloat.leb 0.25 (s - 0.2) then n - 20 else 25)) /\
  (forall es,
     let w := AppUrl.run es (mkWorld AppUrl.initial d l) in
     let s := AppUrl.scale (st w) in
     exists n,
       AppUrlJsx.zoom_label (st w) = Some n /\
       25 <= n <= 300 /\ n mod 5 = 0 /\
       AppUrlJsx.zoom_label (st (exec AppUrl.zoomIn w))
       = Some (if PrimFloat.leb (s + 0.2) 3 then n + 20 else 300) /\
       AppUrlJsx.zoom_label (st (exec AppUrl.zoomOut w))
       = Some (if PrimFloat.leb 0.25 (s - 0.2) then n - 20 else 25)).
Proof.
  split; intros es w s.
  - pose proof (App_scale_orbit d l es) as H. fold w in H. fold s in H.
    rewrite App_zoomIn_world, App_zoomOut_world.
    unfold AppJsx.zoom_label. cbn [st App.scale]. fold s.
    exact (in_orbit _ s scale_orbit_labels H).
  - pose proof (AppUrl_scale_orbit d l es) as H. fold w in H. fold s in H.
    rewrite AppUrl_zoomIn_world, AppUrl_zoomOut_world.
    unfold AppUrlJsx.zoom_label. cbn [st AppUrl.scale]. fold s.
    exact (in_orbit _ s scale_orbit_labels H).
Qed.

Lemma App_zoomIn_clicks k : forall w,
  App.scale (st (App.run (repeat App.ZoomIn k) w))
  = Nat.iter k zoom_in (App.scale (st w)).
Proof.
  induction k as [|k IH]; intro w; [ reflexivity | ].
  cbn [repeat App.run fold_left].
  fold (App.run (repeat App.ZoomIn k) (App.step w App.ZoomIn)).
  rewrite IH, App_step_state, Nat.iter_succ_r. reflexivity.
Qed.

Lemma App_zoomOut_clicks k : forall w,
  App.scale (st (App.run (repeat App.ZoomOut k) w))
  = Nat.iter k zoom_out (App.scale (st w)).
Proof.
  induction k as [|k IH]; intro w; [ reflexivity | ].
  cbn [repeat App.run fold_left].
  fold (App.run (repeat App.ZoomOut k) (App.step w App.ZoomOut)).
  rewrite IH, App_step_state, Nat.iter_succ_r. reflexivity.
Qed.

Lemma AppUrl_zoomIn_clicks k : forall w,
  AppUrl.scale (st (AppUrl.run (repeat AppUrl.ZoomIn k) w))
  = Nat.iter k zoom_in (AppUrl.scale (st w)).
Proof.
  induction k as [|k IH]; intro w; [ reflexivity | ].
  cbn [repeat AppUrl.run fold_left].
  fold (AppUrl.run (repeat AppUrl.ZoomIn k) (AppUrl.step w AppUrl.ZoomIn)).
  rewrite IH, AppUrl_step_state, Nat.iter_succ_r. reflexivity.
Qed.

Lemma AppUrl_zoomOut_clicks k : forall w,
  AppUrl.scale (st (AppUrl.run (repeat AppUrl.ZoomOut k) w))
  = Nat.iter k zoom_out (AppUrl.scale (st w)).
Proof.
  induction k as [|k IH]; intro w; [ reflexivity | ].
  cbn [repeat AppUrl.run fold_left].
  fold (AppUrl.run (repeat AppUrl.ZoomOut k) (AppUrl.step w AppUrl.ZoomOut)).
  rewrite IH, AppUrl_step_state, Nat.iter_succ_r. reflexivity.
Qed.

Lemma zoom_in_saturates j s :
  In s scale_orbit -> Nat.iter (j + 14) zoom_in s = 3%float.
Proof.
  intro H. rewrite Nat.iter_add.
  replace (Nat.iter 14 zoom_in s) with 3%float.
  - induction j as [|j IH]; [ reflexivity | ]. cbn [Nat.iter nat_rect].
    change (zoom_in (Nat.iter j zoom_in 3%float) = 3%float).
    rewrite IH. vm_compute. reflexivity.
  - symmetry. revert s H. apply Forall_forall.
    each_of_orbit ltac:(vm_compute; reflexivity).
Qed.

Lemma zoom_out_saturates j s :
  In s scale_orbit -> Nat.iter (j + 14) zoom_out s = 0.25%float.
Proof.
  intro H. rewrite Nat.iter_add.
  replace (Nat.iter 14 zoom_out s) with 0.25%float.
  - induction j as [|j IH]; [ reflexivity | ]. cbn [Nat.iter nat_rect].
    change (zoom_out (Nat.iter j zoom_out 0.25%float) = 0.25%float).
    rewrite IH. vm_compute. reflexivity.
  - symmetry. revert s H. apply Forall_forall.
    each_of_orbit ltac:(vm_compute; reflexivity).
Qed.

(** X6. In both components, from every state the component can reach,
    fourteen or more clicks on Zoom In bring the scale to exactly 3 (the
    label to 300, the button to disabled), and fourteen or more clicks on
    Zoom Out bring it to exactly 0.25 (the label to 25, the button to
    disabled): both bounds are reached on the nose whatever rounding the
    steps before went through. *)
Theorem zoom_reaches_bounds (d : Dom) (l : list Effect) (j : nat) :
  (forall es,
     let w := App.run es (mkWorld App.initial d l) in
     let wi := App.run (repeat App.ZoomIn (j + 14)) w in
     let wo := App.run (repeat App.ZoomOut (j + 14)) w in
     App.scale (st wi) = 3%float /\
     AppJsx.zoom_label (st wi) = Some 300 /\
     AppJsx.zoomIn_disabled (st wi) = true /\
     App.scale (st wo) = 0.25%float /\
     AppJsx.zoom_label (st wo) = Some 25 /\
     AppJsx.zoomOut_disabled (st wo) = true) /\
  (forall es,
     let w := AppUrl.run es (mkWorld AppUrl.initial d l) in
     let wi := AppUrl.run (repeat AppUrl.ZoomIn (j + 14)) w in
     let wo := AppUrl.run (repeat AppUrl.ZoomOut (j + 14)) w in
     AppUrl.scale (st wi) = 3%float /\
     AppUrlJsx.zoom_label (st wi) = Some 300 /\
     AppUrlJsx.zoomIn_disabled (st wi) = true /\
     AppUrl.scale (st wo) = 0.25%float /\
     AppUrlJsx.zoom_label (st wo) = Some 25 /\
     AppUrlJsx.zoomOut_disabled (st wo) = true).
Proof.
  split; intros es w wi wo.
  - pose proof (App_scale_orbit d l es) as H. fold w in H.
    assert (Hi : App.scale (st wi) = 3%float).
    { unfold wi. rewrite App_zoomIn_clicks. now apply zoom_in_saturates. }
    assert (Ho : App.scale (st wo) = 0.25%float).
    { unfold wo. rewrite App_zoomOut_clicks. now apply zoom_out_saturates. }
    unfold AppJsx.zoom_label, AppJsx.zoomIn_disabled, AppJsx.zoomOut_disabled.
    rewrite Hi, Ho. repeat (split; [ reflexivity | ]). reflexivity.
  - pose proof (AppUrl_scale_orbit d l es) as H. fold w in H.
    assert (Hi : AppUrl.scale (st wi) = 3%float).
    { unfold wi. rewrite AppUrl_zoomIn_clicks. now apply zoom_in_saturates. }
    assert (Ho : AppUrl.scale (st wo) = 0.25%float).
    { unfold wo. rewrite AppUrl_zoomOut_clicks. now apply zoom_out_saturates. }
    unfold AppUrlJsx.zoom_label, AppUrlJsx.zoomIn_disabled,
      AppUrlJsx.zoomOut_disabled.
    rewrite Hi, Ho. repeat (split; [ reflexivity | ]). reflexivity.
Qed.

(** ** Rotation buttons *)

Lemma rotate_cw_mod r : 0 <= r -> rotate_cw r = (r + 90) mod 360.
Proof.
  intro H. unfold rotate_cw, Js.rem. apply Z.rem_mod_nonneg; lia.
Qed.

Lemma rotate_ccw_mod r : 0 <= r -> rotate_ccw r = (r - 90) mod 360.
Proof.
  intro H. unfold rotate_ccw, Js.rem. rewrite Z.rem_mod_nonneg by lia.
  replace (r - 90 + 360) with (r - 90 + 1 * 360) by lia.
  apply Z.mod_add. lia.
Qed.

Lemma rotate_cw_iter k r :
  0 <= r < 360 -> Nat.iter k rotate_cw r = (r + 90 * Z.of_nat k) mod 360.
Proof.
  intro H. induction k as [|k IH].
  - cbn [Nat.iter nat_rect Z.of_nat]. rewrite Z.mul_0_r, Z.add_0_r.
    symmetry. apply Z.mod_small. exact H.
  - change (Nat.iter (S k) rotate_cw r)
      with (rotate_cw (Nat.iter k rotate_cw r)).
    rewrite IH. rewrite rotate_cw_mod by (apply Z.mod_pos_bound; lia).
    rewrite Zplus_mod_idemp_l. f_equal. lia.
Qed.

Lemma rotate_ccw_iter k r :
  0 <= r < 360 -> Nat.iter k rotate_ccw r = (r - 90 * Z.of_nat k) mod 360.
Proof.
  intro H. induction k as [|k IH].
  - cbn [Nat.iter nat_rect Z.of_nat]. rewrite Z.mul_0_r, Z.sub_0_r.
    symmetry. apply Z.mod_small. exact H.
  - change (Nat.iter (S k) rotate_ccw r)
      with (rotate_ccw (Nat.iter k rotate_ccw r)).
    rewrite IH. rewrite rotate_ccw_mod by (apply Z.mod_pos_bound; lia).
    rewrite Zminus_mod_idemp_l. f_equal. lia.
Qed.

Lemma rotation_values_range r :
  In r rotation_values -> 0 <= r < 360 /\ r mod 360 = r.
Proof.
  intro H. apply rotation_values_cases in H.
  destruct H as [-> | [-> | [-> | ->]]]; split; try lia; reflexivity.
Qed.

Lemma App_rotate_right_clicks k : forall w,
  App.rotation (st (App.run (repeat App.RotateRight k) w))
  = Nat.iter k rotate_cw (App.rotation (st w)).
Proof.
  induction k as [|k IH]; intro w; [ reflexivity | ].
  cbn [repeat App.run fold_left].
  fold (App.run (repeat App.RotateRight k) (App.step w App.RotateRight)).
  rewrite IH, App_step_state, Nat.iter_succ_r. reflexivity.
Qed.

Lemma App_rotate_left_clicks k : forall w,
  App.rotation (st (App.run (repeat App.RotateLeft k) w))
  = Nat.iter k rotate_ccw (App.rotation (st w)).
Proof.
  induction k as [|k IH]; intro w; [ reflexivity | ].
  cbn [repeat App.run fold_left].
  fold (App.run (repeat App.RotateLeft k) (App.step w App.RotateLeft)).
  rewrite IH, App_step_state, Nat.iter_succ_r. reflexivity.
Qed.

Lemma AppUrl_rotate_right_clicks k : forall w,
  AppUrl.rotation (st (AppUrl.run (repeat AppUrl.RotateRight k) w))
  = Nat.iter k rotate_cw (AppUrl.rotation (st w)).
Proof.
  induction k as [|k IH]; intro w; [ reflexivity | ].
  cbn [repeat AppUrl.run fold_left].
  fold (AppUrl.run (repeat AppUrl.RotateRight k)
          (AppUrl.step w AppUrl.RotateRight)).
  rewrite IH, AppUrl_step_state, Nat.iter_succ_r. reflexivity.
Qed.

Lemma AppUrl_rotate_left_clicks k : forall w,
  AppUrl.rotation (st (AppUrl.run (repeat AppUrl.RotateLeft k) w))
  = Nat.iter k rotate_ccw (AppUrl.rotation (st w)).
Proof.
  induction k as [|k IH]; intro w; [ reflexivity | ].
  cbn [repeat AppUrl.run fold_left].
  fold (AppUrl.run (repeat AppUrl.RotateLeft k)
          (AppUrl.step w AppUrl.RotateLeft)).
  rewrite IH, AppUrl_step_state, Nat.iter_succ_r. reflexivity.
Qed.

Lemma rotation_after_iter k r :
  In r rotation_values ->
  Nat.iter k rotate_cw r = (r + 90 * Z.of_nat k) mod 360 /\
  Nat.iter k rotate_ccw r = (r - 90 * Z.of_nat k) mod 360.
Proof.
  intro H. destruct (rotation_values_range r H) as [Hr _].
  split; [ now apply rotate_cw_iter | now apply rotate_ccw_iter ].
Qed.

(** X7. In both components, along every sequence of events from the
    [useState] values, [k] clicks on Rotate Right take the rotation [r] to
    (r + 90 k) modulo 360 and [k] clicks on Rotate Left to (r - 90 k)
    modulo 360: four clicks either way, or a multiple of four, give back
    the rotation, and a left click cancels a right click. *)
Theorem rotation_after_clicks (d : Dom) (l : list Effect) (k : nat) :
  (forall es,
     let w := App.run es (mkWorld App.initial d l) in
     let r := App.rotation (st w) in
     App.rotation (st (App.run (repeat App.RotateRight k) w))
       = (r + 90 * Z.of_nat k) mod 360 /\
     App.rotation (st (App.run (repeat App.RotateLeft k) w))
       = (r - 90 * Z.of_nat k) mod 360 /\
     App.rotation (st (App.run (repeat App.RotateRight (4 * k)) w)) = r /\
     App.rotation (st (App.run (repeat App.RotateLeft (4 * k)) w)) = r /\
     exec App.rotateCounterClockwise (exec App.rotateClockwise w) = w /\
     exec App.rotateClockwise (exec App.rotateCounterClockwise w) = w) /\
  (forall es,
     let w := AppUrl.run es (mkWorld AppUrl.initial d l) in
     let r := AppUrl.rotation (st w) in
     AppUrl.rotation (st (AppUrl.run (repeat AppUrl.RotateRight k) w))
       = (r + 90 * Z.of_nat k) mod 360 /\
     AppUrl.rotation (st (AppUrl.run (repeat AppUrl.RotateLeft k) w))
       = (r - 90 * Z.of_nat k) mod 360 /\
     AppUrl.rotation (st (AppUrl.run (repeat AppUrl.RotateRight (4 * k)) w)) = r /\
     AppUrl.rotation (st (AppUrl.run (repeat AppUrl.RotateLeft (4 * k)) w)) = r /\
     exec AppUrl.rotateCounterClockwise (exec AppUrl.rotateClockwise w) = w /\
     exec AppUrl.rotateClockwise (exec AppUrl.rotateCounterClockwise w) = w).
Proof.
  assert (Full : forall r, In r rotation_values ->
            (r + 90 * Z.of_nat (4 * k)) mod 360 = r /\
            (r - 90 * Z.of_nat (4 * k)) mod 360 = r).
  { intros r Hr. destruct (rotation_values_range r Hr) as [_ Hm]. split.
    - replace (r + 90 * Z.of_nat (4 * k)) with (r + Z.of_nat k * 360) by lia.
      rewrite Z.mod_add by lia. exact Hm.
    - replace (r - 90 * Z.of_nat (4 * k)) with (r + (- Z.of_nat k) * 360)
        by lia.
      rewrite Z.mod_add by lia. exact Hm. }
  assert (Inv : forall r, In r rotation_values ->
            rotate_ccw (rotate_cw r) = r /\ rotate_cw (rotate_ccw r) = r).
  { intros r Hr. apply rotation_values_cases in Hr.
    destruct Hr as [-> | [-> | [-> | ->]]]; split; reflexivity. }
  split; intros es w r.
  - pose proof (App_rotation_values d l es) as H. fold w in H. fold r in H.
    rewrite !App_rotate_right_clicks, !App_rotate_left_clicks. fold r.
    destruct (rotation_after_iter k r H) as [A B].
    destruct (rotation_after_iter (4 * k) r H) as [A4 B4].
    destruct (Full r H) as [F1 F2]. destruct (Inv r H) as [I1 I2].
    split; [ exact A | ]. split; [ exact B | ].
    split; [ rewrite A4; exact F1 | ]. split; [ rewrite B4; exact F2 | ].
    subst r. destruct w as [[pd p t sc ro] dm lg].
    cbn [st App.rotation] in I1, I2.
    split; crush_step; [ rewrite I1 | rewrite I2 ]; reflexivity.
  - pose proof (AppUrl_rotation_values d l es) as H. fold w in H. fold r in H.
    rewrite !AppUrl_rotate_right_clicks, !AppUrl_rotate_left_clicks. fold r.
    destruct (rotation_after_iter k r H) as [A B].
    destruct (rotation_after_iter (4 * k) r H) as [A4 B4].
    destruct (Full r H) as [F1 F2]. destruct (Inv r H) as [I1 I2].
    split; [ exact A | ]. split; [ exact B | ].
    split; [ rewrite A4; exact F1 | ]. split; [ rewrite B4; exact F2 | ].
    subst r. destruct w as [[pd p t sc ro fl ue] dm lg].
    cbn [st AppUrl.rotation] in I1, I2.
    split; crush_step; [ rewrite I1 | rewrite I2 ]; reflexivity.
Qed.

(** ** The file viewer inside the URL viewer *)

Lemma shared_cells_step wa wu e :
  st wa = shared_cells (st wu) ->
  st (App.step wa e) = shared_cells (st (AppUrl.step wu (as_url_event e))).
Proof.
  intro H. rewrite App_step_state, AppUrl_step_state, H.
  destruct (st wu) as [pd p t sc r fl ue].
  destruct e; cbn; try reflexivity.
  - destruct (is_pdf_selection sel); reflexivity.
  - destruct (1 <? p); reflexivity.
  - destruct (p <? t); reflexivity.
Qed.

Lemma shared_cells_run es : forall wa wu,
  st wa = shared_cells (st wu) ->
  st (App.run es wa) = shared_cells (st (AppUrl.run (map as_url_event es) wu)).
Proof.
  induction es as [|e es IH]; intros wa wu H; [ exact H | ].
  cbn [map App.run AppUrl.run fold_left].
  apply IH. now apply shared_cells_step.
Qed.

(** X8. The viewer of [part_000], driven by the events of [App.tsx] (file
    selection, reader and load outcomes, page, zoom and rotation clicks,
    renders), goes through the same document handle, page number, total,
    scale and rotation as the viewer of [App.tsx]: on the five cells they
    share, the later file changes nothing of the earlier one. *)
Theorem url_viewer_extends_file_viewer
  (es : list App.Event) (w : World AppUrl.State) (d : Dom) (l : list Effect) :
  st (App.run es (mkWorld (shared_cells (st w)) d l))
  = shared_cells (st (AppUrl.run (map as_url_event es) w)).
Proof. apply shared_cells_run. reflexivity. Qed.

(** ** What the component asks of the library *)

Lemma silent_ret {S A} p (a : A) : silent p (@ret S A a).
Proof. intro w. reflexivity. Qed.

Lemma silent_bind {S A B} p (m : M S A) (k : A -> M S B) :
  silent p m -> (forall a, silent p (k a)) -> silent p (bind m k).
Proof.
  intros Hm Hk w. specialize (Hm w). unfold exec, bind in *.
  destruct (m w) as [[a|e] w'] eqn:E; cbn in *.
  - rewrite <- Hm. apply (Hk a w').
  - exact Hm.
Qed.

Lemma silent_try {S A} p (m : M S A) (h : Thrown -> M S A) :
  silent p m -> (forall e, silent p (h e)) -> silent p (try_catch m h).
Proof.
  intros Hm Hh w. specialize (Hm w). unfold exec, try_catch in *.
  destruct (m w) as [[a|e] w'] eqn:E; cbn in *.
  - exact Hm.
  - rewrite <- Hm. apply (Hh e w').
Qed.

Lemma silent_get_state {S} p : silent p (@get_state S).
Proof. intro w. reflexivity. Qed.

Lemma silent_get_dom {S} p : silent p (@get_dom S).
Proof. intro w. reflexivity. Qed.

Lemma silent_update_state {S} p (f : S -> S) : silent p (@update_state S f).
Proof. intro w. reflexivity. Qed.

Lemma silent_update_dom {S} p (f : Dom -> Dom) : silent p (@update_dom S f).
Proof. intro w. reflexivity. Qed.

Lemma silent_emit {S} p (e : Effect) : p e = false -> silent p (@emit S e).
Proof.
  intros H w. change (filter p (log w ++ [e]) = filter p (log w)).
  rewrite filter_app. cbn. rewrite H. apply app_nil_r.
Qed.

Lemma silent_call {S A} p (e : Effect) (r : Result A) :
  p e = false -> silent p (@call S A e r).
Proof.
  intros H w. change (filter p (log w ++ [e]) = filter p (log w)).
  rewrite filter_app. cbn. rewrite H. apply app_nil_r.
Qed.

Create HintDb silent.
#[export] Hint Resolve silent_ret silent_get_state silent_get_dom
  silent_update_state silent_update_dom : silent.

(** Walks a handler, leaving nothing when each effect it logs is outside
    [p] by computation or by a hypothesis. *)
Ltac silent_walk :=
  repeat first
    [ solve [ auto with silent ]
    | apply silent_update_state
    | apply silent_update_dom
    | apply silent_emit; solve [ reflexivity | assumption ]
    | apply silent_call; solve [ reflexivity | assumption ]
    | apply silent_bind; [ | intro ]
    | apply silent_try; [ | intro ]
    | match goal with
      | |- silent _ (match ?x with _ => _ end) => destruct x
      end ].

Lemma call_ok_page doc p t :
  1 <= p <= t -> t = numPages doc -> bad_call (GetPage doc p) = false.
Proof.
  intros H ->. cbn. apply negb_false_iff, andb_true_intro.
  split; apply Z.leb_le; lia.
Qed.

Lemma call_ok_viewport sc r :
  In sc scale_orbit -> In r rotation_values ->
  bad_call (GetViewport sc r) = false.
Proof.
  intros Hs Hr. cbn. apply negb_false_iff.
  destruct (in_orbit _ sc scale_orbit_bounds Hs) as [-> ->].
  apply rotation_values_cases in Hr.
  destruct Hr as [-> | [-> | [-> | ->]]]; reflexivity.
Qed.

Lemma App_renderPage_try_calls o s doc n :
  bad_call (GetPage doc n) = false ->
  bad_call (GetViewport (App.scale s) (App.rotation s)) = false ->
  silent bad_call (App.renderPage_try o s doc n).
Proof. intros Hp Hv. unfold App.renderPage_try. silent_walk. Qed.

Lemma AppUrl_renderPage_try_calls o s doc n :
  bad_call (GetPage doc n) = false ->
  bad_call (GetViewport (AppUrl.scale s) (AppUrl.rotation s)) = false ->
  silent bad_call (AppUrl.renderPage_try o s doc n).
Proof. intros Hp Hv. unfold AppUrl.renderPage_try. silent_walk. Qed.

Lemma App_render_effect_calls o w :
  App_page_ok (st w) ->
  In (App.scale (st w)) scale_orbit ->
  In (App.rotation (st w)) rotation_values ->
  filter bad_call (log (exec (App.render_effect o) w)) = filter bad_call (log w).
Proof.
  intros Hp Hs Hr. destruct w as [[pd p t sc r] dm lg].
  cbn [st App.scale App.rotation] in Hs, Hr.
  destruct pd as [doc|]; destruct dm as [fi [c|] tl];
    try reflexivity.
  destruct (Hp doc eq_refl) as [Hrange Ht].
  cbn [st App.pageNum App.totalPages] in Hrange, Ht.
  set (s0 := App.mkState (Some doc) p t sc r).
  set (w0 := mkWorld s0 (mkDom fi (Some c) tl) lg).
  change (filter bad_call
            (log (exec (try_catch (App.renderPage_try o s0 doc p)
                                  App.renderPage_catch) w0))
          = filter bad_call (log w0)).
  apply silent_try.
  - apply App_renderPage_try_calls.
    + now apply (call_ok_page doc p t).
    + now apply call_ok_viewport.
  - intro e. unfold App.renderPage_catch. silent_walk.
Qed.

Lemma AppUrl_render_effect_calls o w :
  AppUrl_page_ok (st w) ->
  In (AppUrl.scale (st w)) scale_orbit ->
  In (AppUrl.rotation (st w)) rotation_values ->
  filter bad_call (log (exec (AppUrl.render_effect o) w))
  = filter bad_call (log w).
Proof.
  intros Hp Hs Hr. destruct w as [[pd p t sc r fl ue] dm lg].
  cbn [st AppUrl.scale AppUrl.rotation] in Hs, Hr.
  destruct pd as [doc|]; destruct dm as [fi [c|] [tx|]];
    try reflexivity;
    [ | change (filter bad_call
                  (lg ++ [ConsoleError "Canvas element not found."])
                = filter bad_call lg);
        rewrite filter_app; apply app_nil_r ].
  destruct (Hp doc eq_refl) as [Hrange Ht].
  cbn [st AppUrl.pageNum AppUrl.totalPages] in Hrange, Ht.
  set (s0 := AppUrl.mkState (Some doc) p t sc r fl ue).
  set (w0 := mkWorld s0 (mkDom fi (Some c) (Some tx)) lg).
  change (filter bad_call
            (log (exec (try_catch (AppUrl.renderPage_try o s0 doc p)
                                  AppUrl.renderPage_catch) w0))
          = filter bad_call (log w0)).
  apply silent_try.
  - apply AppUrl_renderPage_try_calls.
    + now apply (call_ok_page doc p t).
    + now apply call_ok_viewport.
  - intro e. unfold AppUrl.renderPage_catch. silent_walk.
Qed.

Lemma App_handle_calls e :
  (forall o, e <> App.Render o) -> silent bad_call (App.handle e).
Proof.
  intro H. destruct e; cbn [App.handle].
  - unfold App.handleFileChange. silent_walk.
  - unfold App.reader_onload. silent_walk.
  - unfold App.reader_onload_fulfilled. silent_walk.
  - unfold App.reader_onload_rejected. silent_walk.
  - unfold App.reader_onerror. silent_walk.
  - unfold App.goToPrevPage. silent_walk.
  - unfold App.goToNextPage. silent_walk.
  - unfold App.zoomIn. silent_walk.
  - unfold App.zoomOut. silent_walk.
  - unfold App.rotateClockwise. silent_walk.
  - unfold App.rotateCounterClockwise. silent_walk.
  - now destruct (H o).
Qed.

Lemma AppUrl_handle_calls e :
  (forall o, e <> AppUrl.Render o) -> silent bad_call (AppUrl.handle e).
Proof.
  intro H. destruct e; cbn [AppUrl.handle].
  - unfold AppUrl.handleFileChange. silent_walk.
  - unfold AppUrl.reader_onload. silent_walk.
  - unfold AppUrl.reader_onload_fulfilled. silent_walk.
  - unfold AppUrl.reader_onload_rejected. silent_walk.
  - unfold AppUrl.reader_onerror. silent_walk.
  - unfold AppUrl.loadPdfFromUrl. silent_walk.
  - unfold AppUrl.loadPdfFromUrl_fulfilled. silent_walk.
  - unfold AppUrl.loadPdfFromUrl_rejected. silent_walk.
  - unfold AppUrl.goToPrevPage. silent_walk.
  - unfold AppUrl.goToNextPage. silent_walk.
  - unfold AppUrl.zoomIn. silent_walk.
  - unfold AppUrl.zoomOut. silent_walk.
  - unfold AppUrl.rotateClockwise. silent_walk.
  - unfold AppUrl.rotateCounterClockwise. silent_walk.
  - now destruct (H o).
Qed.

Lemma App_step_calls w e :
  App_page_ok (st w) ->
  In (App.scale (st w)) scale_orbit ->
  In (App.rotation (st w)) rotation_values ->
  filter bad_call (log (App.step w e)) = filter bad_call (log w).
Proof.
  intros Hp Hs Hr.
  destruct e; try solve [ apply App_handle_calls; intros o' [=] ].
  now apply App_render_effect_calls.
Qed.

Lemma AppUrl_step_calls w e :
  AppUrl_page_ok (st w) ->
  In (AppUrl.scale (st w)) scale_orbit ->
  In (AppUrl.rotation (st w)) rotation_values ->
  filter bad_call (log (AppUrl.step w e)) = filter bad_call (log w).
Proof.
  intros Hp Hs Hr.
  destruct e; try solve [ apply AppUrl_handle_calls; intros o' [=] ].
  now apply AppUrl_render_effect_calls.
Qed.

Lemma App_run_calls es : forall w,
  Forall App_has_pages es ->
  App_page_ok (st w) ->
  In (App.scale (st w)) scale_orbit ->
  In (App.rotation (st w)) rotation_values ->
  filter bad_call (log (App.run es w)) = filter bad_call (log w).
Proof.
  induction es as [|e es IH]; intros w He Hp Hs Hr; [ reflexivity | ].
  inversion He as [|e' es' He1 He2]; subst.
  cbn [App.run fold_left]. fold (App.run es (App.step w e)).
  rewrite IH; auto.
  - now apply App_step_calls.
  - now apply App_page_ok_step.
  - now apply App_scale_orbit_step.
  - now apply App_rotation_step.
Qed.

Lemma AppUrl_run_calls es : forall w,
  Forall AppUrl_has_pages es ->
  AppUrl_page_ok (st w) ->
  In (AppUrl.scale (st w)) scale_orbit ->
  In (AppUrl.rotation (st w)) rotation_values ->
  filter bad_call (log (AppUrl.run es w)) = filter bad_call (log w).
Proof.
  induction es as [|e es IH]; intros w He Hp Hs Hr; [ reflexivity | ].
  inversion He as [|e' es' He1 He2]; subst.
  cbn [AppUrl.run fold_left]. fold (AppUrl.run es (AppUrl.step w e)).
  rewrite IH; auto.
  - now apply AppUrl_step_calls.
  - now apply AppUrl_page_ok_step.
  - now apply AppUrl_scale_orbit_step.
  - now apply AppUrl_rotation_step.
Qed.

(** X9. In both components, along every sequence of events from the
    [useState] values (the library delivering documents of at least one
    page), the component never asks the library for something it would
    refuse: every [getPage] is for a page between 1 and the [numPages] of
    the document it is asked of, and every [getViewport] is for a scale
    within [0.25, 3] and a rotation of 0, 90, 180 or 270.  The log gains
    no call outside these. *)
Theorem library_calls_in_range (d : Dom) (l : list Effect) :
  (forall es, Forall App_has_pages es ->
     filter bad_call (log (App.run es (mkWorld App.initial d l)))
     = filter bad_call l) /\
  (forall es, Forall AppUrl_has_pages es ->
     filter bad_call (log (AppUrl.run es (mkWorld AppUrl.initial d l)))
     = filter bad_call l).
Proof.
  split; intros es H.
  - apply (App_run_calls es (mkWorld App.initial d l) H).
    + intros doc [=].
    + apply scale_orbit_start.
    + now left.
  - apply (AppUrl_run_calls es (mkWorld AppUrl.initial d l) H).
    + intros doc [=].
    + apply scale_orbit_start.
    + now left.
Qed.

Lemma library_calls_in_range_witness :
  filter bad_call (log (App.run three_pages_trace (mkWorld App.initial dom1 [])))
  = [] /\
  log (App.run three_pages_trace (mkWorld App.initial dom1 []))
  = [ReadAsArrayBuffer pdf_file; GetDocumentData [];
     GetPage doc3 3; GetContext2d; GetViewport 1%float 0;
     PageRender (mkPage 3) letter].
Proof.
  split.
  - apply (proj1 (library_calls_in_range dom1 []) three_pages_trace
                 three_pages_trace_has_pages).
  - reflexivity.
Defined.

(** ** Alerts and the URL error *)

Lemma AppUrl_handle_no_alert e :
  url_or_control e = true -> silent is_alert (AppUrl.handle e).
Proof.
  intro H. destruct e; try discriminate H; cbn [AppUrl.handle].
  - unfold AppUrl.loadPdfFromUrl. silent_walk.
  - unfold AppUrl.loadPdfFromUrl_fulfilled. silent_walk.
  - unfold AppUrl.loadPdfFromUrl_rejected. silent_walk.
  - unfold AppUrl.goToPrevPage. silent_walk.
  - unfold AppUrl.goToNextPage. silent_walk.
  - unfold AppUrl.zoomIn. silent_walk.
  - unfold AppUrl.zoomOut. silent_walk.
  - unfold AppUrl.rotateClockwise. silent_walk.
  - unfold AppUrl.rotateCounterClockwise. silent_walk.
Qed.

(** X10. In [part_000], no sequence of events of the URL loader (start,
    fulfilled, rejected) and of the control surface (page, zoom and
    rotation clicks) ever shows an alert: a failed URL load is reported
    through [urlError] only. *)
Theorem url_loader_never_alerts (es : list AppUrl.Event) (w : World AppUrl.State) :
  forallb url_or_control es = true ->
  filter is_alert (log (AppUrl.run es w)) = filter is_alert (log w).
Proof.
  revert w. induction es as [|e es IH]; intros w H; [ reflexivity | ].
  cbn [forallb] in H. apply andb_prop in H as [He Hes].
  cbn [AppUrl.run fold_left]. fold (AppUrl.run es (AppUrl.step w e)).
  rewrite (IH _ Hes). now apply AppUrl_handle_no_alert.
Qed.

Lemma url_loader_never_alerts_witness :
  filter is_alert
    (log (AppUrl.run
            [AppUrl.LoadUrl "/missing.pdf";
             AppUrl.UrlRejected "/missing.pdf"
               (ErrorObj "MissingPDFException" "Missing PDF");
             AppUrl.ZoomIn; AppUrl.NextPage]
            (mkWorld AppUrl.initial dom0 [])))
  = [] /\
  AppUrl.urlError
    (st (AppUrl.run
           [AppUrl.LoadUrl "/missing.pdf";
            AppUrl.UrlRejected "/missing.pdf"
              (ErrorObj "MissingPDFException" "Missing PDF");
            AppUrl.ZoomIn; AppUrl.NextPage]
           (mkWorld AppUrl.initial dom0 [])))
  = Some "File not found at URL: /missing.pdf. Or CORS issue.".
Proof.
  split.
  - apply (url_loader_never_alerts
             [AppUrl.LoadUrl "/missing.pdf";
              AppUrl.UrlRejected "/missing.pdf"
                (ErrorObj "MissingPDFException" "Missing PDF");
              AppUrl.ZoomIn; AppUrl.NextPage]
             (mkWorld AppUrl.initial dom0 [])).
    reflexivity.
  - reflexivity.
Defined.

Lemma url_error_message_truthy url err :
  truthy (AppUrl.url_error_message url err) = true.
Proof.
  destruct err as [name message | text]; cbn [AppUrl.url_error_message].
  - destruct (String.eqb name "MissingPDFException"); [ reflexivity | ].
    destruct (String.eqb name "UnexpectedResponseException"); reflexivity.
  - reflexivity.
Qed.

Lemma load_status_ok_step w e :
  load_status_ok (st w) -> load_status_ok (st (AppUrl.step w e)).
Proof.
  intros [H1 H2]. rewrite AppUrl_step_state.
  destruct (st w) as [pd p t sc r fl ue]; cbn in *.
  destruct e; cbn; try (split; assumption).
  - destruct (is_pdf_selection sel); cbn; [ | split; assumption ].
    split; [ discriminate | intros m [=] ].
  - destruct fl; cbn; [ split; assumption | ].
    split; [ reflexivity | intros m [=] ].
  - split; [ discriminate | exact H2 ].
  - split; [ discriminate | ].
    intros m [= <-]. apply url_error_message_truthy.
  - destruct (1 <? p); cbn; split; assumption.
  - destruct (p <? t); cbn; split; assumption.
Qed.

(** X11. In [part_000], along every sequence of events from the
    [useState] values, the loading flag and the URL error are never up
    together, and a URL error is never the empty string; so the error
    banner shows the URL error exactly when there is one and no document
    is loaded, and after a rejected URL load, whatever was thrown, it
    shows the message built for it while the container says that the
    load failed. *)
Theorem url_error_banner (d : Dom) (l : list Effect) :
  (forall es,
     let s := st (AppUrl.run es (mkWorld AppUrl.initial d l)) in
     load_status_ok s /\
     AppUrlJsx.error_banner s
     = match AppUrl.pdfDoc s with
       | Some _ => None
       | None => AppUrl.urlError s
       end) /\
  (forall w url err,
     let s := st (exec (AppUrl.loadPdfFromUrl_rejected url err) w) in
     AppUrlJsx.error_banner s = Some (AppUrl.url_error_message url err) /\
     AppUrlJsx.container s = Placeholder FailedToLoad /\
     AppUrlJsx.fileInput_disabled s = false /\
     AppUrlJsx.urlButton_disabled s = false).
Proof.
  split.
  - intros es s.
    assert (H : load_status_ok s).
    { apply (AppUrl_run_invariant load_status_ok (fun _ => True)).
      - intros w e _. apply load_status_ok_step.
      - apply Forall_any.
      - split; [ discriminate | intros m [=] ]. }
    split; [ exact H | ].
    destruct H as [_ H]. unfold AppUrlJsx.error_banner.
    destruct (AppUrl.urlError s) as [m|]; destruct (AppUrl.pdfDoc s);
      try reflexivity.
    now rewrite (H m eq_refl).
  - intros w url err s. subst s. open_world w. crush_step.
    unfold AppUrlJsx.error_banner, AppUrlJsx.container,
      AppUrlJsx.fileInput_disabled, AppUrlJsx.urlButton_disabled.
    cbn [AppUrl.urlError AppUrl.pdfDoc AppUrl.isLoadingUrl].
    rewrite url_error_message_truthy. repeat split.
Qed.

(** ** The file loader's other paths *)



(** X15. A selection whose type is [application/pdf] starts one read of
    that file and nothing else in [App.tsx]; in [part_000] it also clears
    the URL error and lowers the loading flag.  No alert is shown and the
    file input keeps its value.  When the reader then delivers the bytes,
    [getDocument] is called once with them, and the document on display,
    its page, scale and rotation stay as they are until the promise
    settles. *)
Theorem pdf_selection_starts_read (f : File) :
  file_type f = "application/pdf" ->
  (forall w,
     exec (App.handleFileChange (Some f)) w
     = mkWorld (st w) (dom w) (log w ++ [ReadAsArrayBuffer f])) /\
  (forall w,
     exec (AppUrl.handleFileChange (Some f)) w
     = mkWorld (AppUrl.mkState (AppUrl.pdfDoc (st w)) (AppUrl.pageNum (st w))
                  (AppUrl.totalPages (st w)) (AppUrl.scale (st w))
                  (AppUrl.rotation (st w)) false None)
               (dom w) (log w ++ [ReadAsArrayBuffer f])) /\
  (forall w data,
     App.run [App.FileChange (Some f); App.ReaderLoad (Some data)] w
     = mkWorld (st w) (dom w)
         (log w ++ [ReadAsArrayBuffer f; GetDocumentData data])) /\
  (forall w data,
     AppUrl.run [AppUrl.FileChange (Some f); AppUrl.ReaderLoad (Some data)] w
     = mkWorld (AppUrl.mkState (AppUrl.pdfDoc (st w)) (AppUrl.pageNum (st w))
                  (AppUrl.totalPages (st w)) (AppUrl.scale (st w))
                  (AppUrl.rotation (st w)) false None)
               (dom w)
               (log w ++ [ReadAsArrayBuffer f; GetDocumentData data])).
Proof.
  intro H. split; [ | split; [ | split ] ]; intro w; intros;
    destruct w as [s dm lg]; destruct s;
    cbn [App.run AppUrl.run fold_left]; crush_step; rewrite H; cbn;
    rewrite <- ?app_assoc; reflexivity.
Qed.

Lemma pdf_selection_starts_read_witness :
  exec (AppUrl.handleFileChange (Some pdf_file))
       (mkWorld (AppUrl.mkState (Some doc3) 2 3 1.4%float 90 false
                   (Some "Failed to load PDF from URL.")) dom1 [])
  = mkWorld (AppUrl.mkState (Some doc3) 2 3 1.4%float 90 false None) dom1
            [ReadAsArrayBuffer pdf_file].
Proof.
  apply (proj1 (proj2 (pdf_selection_starts_read pdf_file eq_refl))).
Defined.

(** ** The view of a freshly loaded document *)

(** X16. In both components, right after a load is fulfilled with a
    document of at least one page, the container shows the canvas and the
    controls, the Previous button is disabled, the Next button is disabled
    exactly when the document has a single page, the zoom label reads 100
    and both zoom buttons are enabled; in [part_000] no error banner is
    shown, also after a URL load that followed a failed one. *)
Theorem fresh_document_view (pdf : PDFDocumentProxy) :
  1 <= numPages pdf ->
  (forall w,
     let s := st (exec (App.reader_onload_fulfilled pdf) w) in
     AppJsx.container s = CanvasShown /\
     AppJsx.controls_shown s = true /\
     AppJsx.prev_disabled s = true /\
     AppJsx.next_disabled s = (numPages pdf =? 1) /\
     AppJsx.zoom_label s = Some 100 /\
     AppJsx.zoomIn_disabled s = false /\
     AppJsx.zoomOut_disabled s = false) /\
  (forall w,
     let s := st (exec (AppUrl.reader_onload_fulfilled pdf) w) in
     AppUrlJsx.container s = CanvasShown /\
     AppUrlJsx.controls_shown s = true /\
     AppUrlJsx.error_banner s = None /\
     AppUrlJsx.prev_disabled s = true /\
     AppUrlJsx.next_disabled s = (numPages pdf =? 1) /\
     AppUrlJsx.zoom_label s = Some 100 /\
     AppUrlJsx.zoomIn_disabled s = false /\
     AppUrlJsx.zoomOut_disabled s = false) /\
  (forall w,
     let s := st (exec (AppUrl.loadPdfFromUrl_fulfilled pdf) w) in
     AppUrlJsx.container s = CanvasShown /\
     AppUrlJsx.controls_shown s = true /\
     AppUrlJsx.error_banner s = None /\
     AppUrlJsx.fileInput_disabled s = false /\
     AppUrlJsx.urlButton_disabled s = false /\
     AppUrlJsx.prev_disabled s = true /\
     AppUrlJsx.next_disabled s = (numPages pdf =? 1) /\
     AppUrlJsx.zoom_label s = Some 100 /\
     AppUrlJsx.zoomIn_disabled s = false /\
     AppUrlJsx.zoomOut_disabled s = false).
Proof.
  intro H.
  assert (E : (numPages pdf <=? 1) = (numPages pdf =? 1)).
  { destruct (numPages pdf =? 1) eqn:E1.
    - apply Z.eqb_eq in E1. apply Z.leb_le. lia.
    - apply Z.eqb_neq in E1. apply Z.leb_gt. lia. }
  split; [ | split ]; intros w s; subst s; open_world w; crush_step;
    unfold AppJsx.container, AppJsx.controls_shown, AppJsx.prev_disabled,
      AppJsx.next_disabled, AppJsx.zoom_label, AppJsx.zoomIn_disabled,
      AppJsx.zoomOut_disabled, AppUrlJsx.container, AppUrlJsx.controls_shown,
      AppUrlJsx.error_banner, AppUrlJsx.prev_disabled, AppUrlJsx.next_disabled,
      AppUrlJsx.zoom_label, AppUrlJsx.zoomIn_disabled,
      AppUrlJsx.zoomOut_disabled, AppUrlJsx.fileInput_disabled,
      AppUrlJsx.urlButton_disabled;
    cbn [App.pdfDoc App.pageNum App.totalPages App.scale
         AppUrl.pdfDoc AppUrl.pageNum AppUrl.totalPages AppUrl.scale
         AppUrl.urlError AppUrl.isLoadingUrl];
    rewrite E;
    repeat (split; [ first [ reflexivity | destruct urlError; reflexivity ] | ]);
    reflexivity.
Qed.

Lemma fresh_document_view_witness :
  AppJsx.next_disabled (st (exec (App.reader_onload_fulfilled doc3) App_showing))
  = false /\
  AppJsx.zoom_label (st (exec (App.reader_onload_fulfilled doc3) App_showing))
  = Some 100.
Proof.
  assert (H : 1 <= numPages doc3) by (cbn; lia).
  destruct (fresh_document_view doc3 H) as [A _].
  destruct (A App_showing) as (_ & _ & _ & N & Z & _).
  split; [ exact N | exact Z ].
Defined.

(** ** What [renderPage] changes and what it reports *)

Lemma App_renderPage_try_no_alert o s doc n :
  silent is_alert (App.renderPage_try o s doc n).
Proof. unfold App.renderPage_try. silent_walk. Qed.

Lemma AppUrl_renderPage_try_no_alert o s doc n :
  silent is_alert (AppUrl.renderPage_try o s doc n).
Proof. unfold AppUrl.renderPage_try. silent_walk. Qed.

Lemma App_renderPage_alert_list o n w :
  filter is_alert (log (exec (App.renderPage o n) w))
  = (filter is_alert (log w)
     ++ match App.pdfDoc (st w), canvasRef (dom w) with
        | Some doc, Some _ =>
          match outcome (App.renderPage_try o (st w) doc n) w with
          | Throw e => [Alert ("Error rendering page: " ++ message_or_string e)%string]
          | Ok _ => []
          end
        | _, _ => []
        end)%list.
Proof.
  unfold App.renderPage, exec, outcome, bind, get_state, get_dom.
  destruct (App.pdfDoc (st w)) as [doc|];
    [ | cbn; now rewrite app_nil_r ].
  destruct (canvasRef (dom w)) as [c|].
  - pose proof (App_renderPage_try_no_alert o (st w) doc n w) as Hs.
    unfold exec in Hs. unfold try_catch.
    destruct (App.renderPage_try o (st w) doc n w) as [[[]|e] w']; cbn in *.
    + rewrite Hs. now rewrite app_nil_r.
    + rewrite <- app_assoc, filter_app, Hs. reflexivity.
  - cbn. now rewrite filter_app.
Qed.

Lemma AppUrl_renderPage_alert_list o n w :
  filter is_alert (log (exec (AppUrl.renderPage o n) w))
  = (filter is_alert (log w)
     ++ match AppUrl.pdfDoc (st w), canvasRef (dom w), textLayerRef (dom w) with
        | Some doc, Some _, Some _ =>
          match outcome (AppUrl.renderPage_try o (st w) doc n) w with
          | Throw e => [Alert ("Error rendering page: " ++ message_or_string e)%string]
          | Ok _ => []
          end
        | _, _, _ => []
        end)%list.
Proof.
  unfold AppUrl.renderPage, exec, outcome, bind, get_state, get_dom.
  destruct (AppUrl.pdfDoc (st w)) as [doc|];
    [ | cbn; now rewrite app_nil_r ].
  destruct (canvasRef (dom w)) as [c|]; [ | cbn; now rewrite filter_app ].
  destruct (textLayerRef (dom w)) as [t|]; [ | cbn; now rewrite filter_app ].
  pose proof (AppUrl_renderPage_try_no_alert o (st w) doc n w) as Hs.
  unfold exec in Hs. unfold try_catch.
  destruct (AppUrl.renderPage_try o (st w) doc n w) as [[[]|e] w']; cbn in *.
  - rewrite Hs. now rewrite app_nil_r.
  - rewrite <- app_assoc, filter_app, Hs. reflexivity.
Qed.

Lemma App_renderPage_no_context o n w doc c page :
  App.pdfDoc (st w) = Some doc ->
  canvasRef (dom w) = Some c ->
  o_getPage o doc n = Ok page ->
  o_getContext o = false ->
  exec (App.renderPage o n) w
  = mkWorld (st w) (dom w)
      (log w ++ [GetPage doc n; GetContext2d;
                 ConsoleError "Failed to get 2D context from canvas."]).
Proof.
  intros Hd Hc Hp Hx. destruct w as [s dm lg]. cbn in Hd, Hc.
  cbv [App.renderPage App.renderPage_try exec bind get_state get_dom
       try_catch call emit console_error ret fst snd st dom log].
  rewrite Hd, Hc, Hp, Hx. cbn. rewrite <- !app_assoc. reflexivity.
Qed.

Lemma AppUrl_renderPage_no_context o n w doc c t page :
  AppUrl.pdfDoc (st w) = Some doc ->
  canvasRef (dom w) = Some c ->
  textLayerRef (dom w) = Some t ->
  o_getPage o doc n = Ok page ->
  o_getContext o = false ->
  exec (AppUrl.renderPage o n) w
  = mkWorld (st w) (dom w)
      (log w ++ [GetPage doc n; GetContext2d;
                 ConsoleError "Failed to get 2D context from canvas."]).
Proof.
  intros Hd Hc Ht Hp Hx. destruct w as [s dm lg]. cbn in Hd, Hc, Ht.
  cbv [AppUrl.renderPage AppUrl.renderPage_try exec bind get_state get_dom
       try_catch call emit console_error ret fst snd st dom log].
  rewrite Hd, Hc, Ht, Hp, Hx. cbn. rewrite <- !app_assoc. reflexivity.
Qed.

Lemma App_renderPage_no_target o n w doc :
  App.pdfDoc (st w) = Some doc ->
  canvasRef (dom w) = None ->
  exec (App.renderPage o n) w
  = mkWorld (st w) (dom w) (log w ++ [ConsoleError "Canvas element not found."]).
Proof.
  intros Hd Hc. destruct w as [s dm lg]. cbn in Hd, Hc.
  cbv [App.renderPage exec bind get_state get_dom emit console_error ret
       fst snd st dom log].
  rewrite Hd, Hc. reflexivity.
Qed.

Lemma AppUrl_renderPage_no_target o n w doc :
  AppUrl.pdfDoc (st w) = Some doc ->
  canvasRef (dom w) = None \/ textLayerRef (dom w) = None ->
  exec (AppUrl.renderPage o n) w
  = mkWorld (st w) (dom w) (log w ++ [ConsoleError "Canvas element not found."]).
Proof.
  intros Hd Hc. destruct w as [s dm lg]. cbn in Hd, Hc.
  cbv [AppUrl.renderPage exec bind get_state get_dom emit console_error ret
       fst snd st dom log].
  rewrite Hd. destruct Hc as [Hc | Hc]; rewrite Hc;
    [ | destruct (canvasRef dm) ]; reflexivity.
Qed.

(** C9, as stated, fails: a render that cannot go on is not always
    surfaced as an alert.  With a document on display, a canvas that gives
    no 2D context makes [renderPage] stop after a console message, and so
    does a text layer that is not mounted: nothing is drawn and no alert
    is shown. *)
Lemma render_failure_without_alert :
  log (exec (App.renderPage oracle_no_context 2) App_showing)
  = [GetPage doc3 2; GetContext2d;
     ConsoleError "Failed to get 2D context from canvas."] /\
  filter is_alert (log (exec (App.renderPage oracle_no_context 2) App_showing))
  = [] /\
  log (exec (AppUrl.renderPage oracle_no_context 2) AppUrl_showing)
  = [GetPage doc3 2; GetContext2d;
     ConsoleError "Failed to get 2D context from canvas."] /\
  filter is_alert
    (log (exec (AppUrl.renderPage oracle_no_context 2) AppUrl_showing))
  = [] /\
  log (exec (AppUrl.renderPage oracle_ok 2) AppUrl_no_text_layer)
  = [ConsoleError "Canvas element not found."].
Proof. repeat split. Qed.

(** C9, amended. In both components [renderPage] writes no [useState]
    cell: for every answer of the library and of the canvas, every page
    number and every world (no document, no canvas or text layer, a null
    2D context, a step that throws), the document handle, page number,
    total, scale and rotation after the call are those before it, with no
    rollback, and the call itself never throws.  A failure is surfaced as
    an alert exactly when a step of the [try] block throws: the error is
    then logged and shown in the alert 'Error rendering page: ...'.  When
    the canvas (or, in [part_000], the text layer) is not mounted, and
    when the canvas gives no 2D context, [renderPage] writes a console
    message and returns, and no alert is shown. *)
Theorem renderPage_frame (o : RenderOracle) (n : Z) :
  (forall w, st (exec (App.renderPage o n) w) = st w) /\
  (forall w, st (exec (AppUrl.renderPage o n) w) = st w) /\
  (forall w, outcome (App.renderPage o n) w = Ok tt) /\
  (forall w, outcome (AppUrl.renderPage o n) w = Ok tt) /\
  (forall w doc c e,
     App.pdfDoc (st w) = Some doc ->
     canvasRef (dom w) = Some c ->
     outcome (App.renderPage_try o (st w) doc n) w = Throw e ->
     log (exec (App.renderPage o n) w)
     = (log (exec (App.renderPage_try o (st w) doc n) w)
       ++ [ConsoleError "Error rendering page:";
           Alert ("Error rendering page: " ++ message_or_string e)%string])%list) /\
  (forall w doc c t e,
     AppUrl.pdfDoc (st w) = Some doc ->
     canvasRef (dom w) = Some c ->
     textLayerRef (dom w) = Some t ->
     outcome (AppUrl.renderPage_try o (st w) doc n) w = Throw e ->
     log (exec (AppUrl.renderPage o n) w)
     = (log (exec (AppUrl.renderPage_try o (st w) doc n) w)
       ++ [ConsoleError "Error rendering page:";
           Alert ("Error rendering page: " ++ message_or_string e)%string])%list) /\
  (forall w,
     filter is_alert (log (exec (App.renderPage o n) w))
     = (filter is_alert (log w)
        ++ match App.pdfDoc (st w), canvasRef (dom w) with
           | Some doc, Some _ =>
             match outcome (App.renderPage_try o (st w) doc n) w with
             | Throw e =>
               [Alert ("Error rendering page: " ++ message_or_string e)%string]
             | Ok _ => []
             end
           | _, _ => []
           end)%list) /\
  (forall w,
     filter is_alert (log (exec (AppUrl.renderPage o n) w))
     = (filter is_alert (log w)
        ++ match AppUrl.pdfDoc (st w), canvasRef (dom w),
                 textLayerRef (dom w) with
           | Some doc, Some _, Some _ =>
             match outcome (AppUrl.renderPage_try o (st w) doc n) w with
             | Throw e =>
               [Alert ("Error rendering page: " ++ message_or_string e)%string]
             | Ok _ => []
             end
           | _, _, _ => []
           end)%list) /\
  (forall w doc,
     App.pdfDoc (st w) = Some doc ->
     canvasRef (dom w) = None ->
     exec (App.renderPage o n) w
     = mkWorld (st w) (dom w)
         (log w ++ [ConsoleError "Canvas element not found."])) /\
  (forall w doc,
     AppUrl.pdfDoc (st w) = Some doc ->
     canvasRef (dom w) = None \/ textLayerRef (dom w) = None ->
     exec (AppUrl.renderPage o n) w
     = mkWorld (st w) (dom w)
         (log w ++ [ConsoleError "Canvas element not found."])) /\
  (forall w doc c page,
     App.pdfDoc (st w) = Some doc ->
     canvasRef (dom w) = Some c ->
     o_getPage o doc n = Ok page ->
     o_getContext o = false ->
     exec (App.renderPage o n) w
     = mkWorld (st w) (dom w)
         (log w ++ [GetPage doc n; GetContext2d;
                    ConsoleError "Failed to get 2D context from canvas."])) /\
  (forall w doc c t page,
     AppUrl.pdfDoc (st w) = Some doc ->
     canvasRef (dom w) = Some c ->
     textLayerRef (dom w) = Some t ->
     o_getPage o doc n = Ok page ->
     o_getContext o = false ->
     exec (AppUrl.renderPage o n) w
     = mkWorld (st w) (dom w)
         (log w ++ [GetPage doc n; GetContext2d;
                    ConsoleError "Failed to get 2D context from canvas."])).
Proof.
  split; [ apply App_renderPage_keeps | ].
  split; [ apply AppUrl_renderPage_keeps | ].
  split; [ apply App_renderPage_returns | ].
  split; [ apply AppUrl_renderPage_returns | ].
  split; [ intros w doc c e; apply App_renderPage_alerts | ].
  split; [ intros w doc c t e; apply AppUrl_renderPage_alerts | ].
  split; [ apply App_renderPage_alert_list | ].
  split; [ apply AppUrl_renderPage_alert_list | ].
  split; [ intros w doc; apply App_renderPage_no_target | ].
  split; [ intros w doc; apply AppUrl_renderPage_no_target | ].
  split.
  - intros w doc c page. apply App_renderPage_no_context.
  - intros w doc c t page. apply AppUrl_renderPage_no_context.
Qed.

Lemma renderPage_frame_witness :
  log (exec (AppUrl.renderPage oracle_no_page 2) AppUrl_showing)
  = [GetPage doc3 2; ConsoleError "Error rendering page:";
     Alert "Error rendering page: Invalid page request."] /\
  st (exec (AppUrl.renderPage oracle_no_page 2) AppUrl_showing)
  = st AppUrl_showing /\
  exec (App.renderPage oracle_no_context 2) App_showing
  = mkWorld (st App_showing) (dom App_showing)
      [GetPage doc3 2; GetContext2d;
       ConsoleError "Failed to get 2D context from canvas."] /\
  exec (AppUrl.renderPage oracle_ok 2) AppUrl_no_text_layer
  = mkWorld (st AppUrl_no_text_layer) (dom AppUrl_no_text_layer)
      [ConsoleError "Canvas element not found."].
Proof.
  destruct (renderPage_frame oracle_no_page 2)
    as (_ & F & _ & _ & _ & A & _).
  destruct (renderPage_frame oracle_no_context 2)
    as (_ & _ & _ & _ & _ & _ & _ & _ & _ & _ & X & _).
  destruct (renderPage_frame oracle_ok 2)
    as (_ & _ & _ & _ & _ & _ & _ & _ & _ & T & _).
  split; [ | split; [ | split ] ].
  - apply (A AppUrl_showing doc3 (mkCanvas 300 150)
             (mkTextLayer 0%float 0%float [])
             (ErrorObj "Error" "Invalid page request."));
      reflexivity.
  - apply F.
  - apply (X App_showing doc3 (mkCanvas 300 150) (mkPage 2)); reflexivity.
  - apply (T AppUrl_no_text_layer doc3); [ reflexivity | right; reflexivity ].
Defined.
